(** * fastq-qc: the job pipeline of the FASTQ QC micro-services

    A shallow embedding of the three Go processes of the repository

    - [services/ingress-api/main.go]  (module [Ingress]),
    - [services/qc-worker/main.go]    (modules [Analyzer] and [Worker]),
    - the results API                 (module [Results]),

    over one model of the PostgreSQL schema they share (module [Store]).

    Conventions.
    - Go [string]s are byte sequences: Rocq [string]s, one [ascii] per byte.
    - [int64] counters are [Z] with the two's-complement wrap-around written
      out ([wrap64]); [int] is taken to be 64 bits wide (amd64/arm64 images).
    - [float64] is the kernel's binary64 ([PrimFloat.float]).
    - A table is the list of its rows, in insertion order; its PRIMARY KEY,
      FOREIGN KEY and CHECK constraints are enforced by the statements.
    - What the environment decides (whether a file opens, what a [db.Exec]
      reports when the connection fails, the clock) is an explicit argument. *)

From Stdlib Require Import ZArith List String Ascii Bool Lia.
From Stdlib Require Import Floats.PrimFloat Numbers.Cyclic.Int63.Uint63.
Import ListNotations.

Open Scope string_scope.
Open Scope Z_scope.

(* ================================================================== *)
(** ** Go runtime: integers, floats, strings *)
(* ================================================================== *)

Module Go.

(** [int64] arithmetic wraps around silently. *)
Definition wrap64 (z : Z) : Z := (z + 2 ^ 63) mod 2 ^ 64 - 2 ^ 63.

(** The conversion [float64(x)] of an [int64]: round to nearest, ties to
    even.  [of_uint63] does that for the magnitudes below [2^63]. *)
Definition float64_of_int64 (z : Z) : float :=
  if z =? - 2 ^ 63 then (-9223372036854775808)%float
  else if z <? 0 then PrimFloat.opp (PrimFloat.of_uint63 (Uint63.of_Z (- z)))
  else PrimFloat.of_uint63 (Uint63.of_Z z).

(** [len(s)] *)
Definition len (s : string) : Z := Z.of_nat (String.length s).

Definition byte_val (c : ascii) : Z := Z.of_N (N_of_ascii c).

(** The table [asciiSpace] of package [strings]: tab, line feed, vertical
    tab, form feed, carriage return, space. *)
Definition asciiSpace (c : ascii) : bool :=
  match byte_val c with
  | 9 | 10 | 11 | 12 | 13 | 32 => true
  | _ => false
  end.

(** The UTF-8 encodings of the white-space runes of [unicode.IsSpace] that
    are not ASCII: U+0085 and U+00A0 take two bytes, U+1680, U+2000..U+200A,
    U+2028, U+2029, U+202F, U+205F and U+3000 take three.  The decoder accepts
    only the shortest encoding of a rune and turns every invalid byte into
    U+FFFD, which is not a space, so a white-space rune starts (ends) at a
    position exactly when one of these byte sequences does. *)
Definition space2 (a b : ascii) : bool :=
  (byte_val a =? 0xC2) && ((byte_val b =? 0x85) || (byte_val b =? 0xA0)).

Definition space3 (a b c : ascii) : bool :=
  ((byte_val a =? 0xE1) && (byte_val b =? 0x9A) && (byte_val c =? 0x80))
  || ((byte_val a =? 0xE2) && (byte_val b =? 0x80)
      && (((0x80 <=? byte_val c) && (byte_val c <=? 0x8A))
          || (byte_val c =? 0xA8) || (byte_val c =? 0xA9) || (byte_val c =? 0xAF)))
  || ((byte_val a =? 0xE2) && (byte_val b =? 0x81) && (byte_val c =? 0x9F))
  || ((byte_val a =? 0xE3) && (byte_val b =? 0x80) && (byte_val c =? 0x80)).

(** [strings.TrimLeftFunc(s, unicode.IsSpace)]: drop white-space runes from
    the front. *)
Fixpoint trimLeft (s : list ascii) : list ascii :=
  match s with
  | [] => []
  | a :: t1 =>
      if asciiSpace a then trimLeft t1
      else match t1 with
           | [] => s
           | b :: t2 =>
               if space2 a b then trimLeft t2
               else match t2 with
                    | [] => s
                    | c :: t3 => if space3 a b c then trimLeft t3 else s
                    end
           end
  end.

(** The same walk from the back, on the reversed bytes: the last byte of a
    rune comes first. *)
Fixpoint trimLeftRev (s : list ascii) : list ascii :=
  match s with
  | [] => []
  | c :: t1 =>
      if asciiSpace c then trimLeftRev t1
      else match t1 with
           | [] => s
           | b :: t2 =>
               if space2 b c then trimLeftRev t2
               else match t2 with
                    | [] => s
                    | a :: t3 => if space3 a b c then trimLeftRev t3 else s
                    end
           end
  end.

(** [strings.TrimRightFunc(s, unicode.IsSpace)] *)
Definition trimRight (s : list ascii) : list ascii := rev (trimLeftRev (rev s)).

(** [strings.TrimSpace]: leading and trailing white space removed.  The
    library's ASCII fast path and its fall-back to [TrimFunc] compute the same
    slice. *)
Definition TrimSpace (s : string) : string :=
  string_of_list_ascii (trimRight (trimLeft (list_ascii_of_string s))).

End Go.

(* ================================================================== *)
(** ** The PostgreSQL schema ([initTables]) and its statements *)
(* ================================================================== *)

Module Store.

(** Table [jobs]. *)
Record JobRow := mkJob {
  j_id : string;                 (* id UUID PRIMARY KEY *)
  j_filename : string;           (* filename TEXT NOT NULL *)
  j_status : string;             (* status TEXT NOT NULL CHECK (...) *)
  j_error : option string;       (* error TEXT *)
  j_submitted_at : Z;            (* submitted_at TIMESTAMPTZ NOT NULL DEFAULT now() *)
  j_completed_at : option Z      (* completed_at TIMESTAMPTZ *)
}.

(** Table [qc_results]. *)
Record QCRow := mkQC {
  qc_job_id : string;            (* job_id UUID PRIMARY KEY REFERENCES jobs(id) *)
  qc_reads : Z;                  (* reads BIGINT NOT NULL *)
  qc_avg_read_length : float;    (* avg_read_length DOUBLE PRECISION NOT NULL *)
  qc_gc_content : float;         (* gc_content DOUBLE PRECISION NOT NULL *)
  qc_n_content : float;          (* n_content DOUBLE PRECISION NOT NULL *)
  qc_processing_ms : Z           (* processing_ms INTEGER NOT NULL *)
}.

Record DB := mkDB {
  jobs : list JobRow;
  qc_results : list QCRow
}.

(** The state [initTables] leaves on a fresh database. *)
Definition empty_db : DB := {| jobs := []; qc_results := [] |}.

(** CHECK (status IN ('queued','processing','done','error')) *)
Definition status_check (s : string) : bool :=
  String.eqb s "queued" || String.eqb s "processing" || String.eqb s "done" || String.eqb s "error".

Definition find_job (id : string) (db : DB) : option JobRow :=
  find (fun j => String.eqb (j_id j) id) (jobs db).

Definition find_qc (id : string) (db : DB) : option QCRow :=
  find (fun r => String.eqb (qc_job_id r) id) (qc_results db).

Definition has_job (id : string) (db : DB) : bool :=
  existsb (fun j => String.eqb (j_id j) id) (jobs db).

(** The rows of [qc_results] that belong to a job. *)
Definition qc_rows_of (id : string) (db : DB) : list QCRow :=
  filter (fun r => String.eqb (qc_job_id r) id) (qc_results db).

(** The error texts of the constraint violations (PostgreSQL's messages,
    shortened). *)
Definition err_check : string := "violates check constraint jobs_status_check".
Definition err_fkey : string := "violates foreign key constraint qc_results_job_id_fkey".
Definition err_pkey : string := "duplicate key value violates unique constraint jobs_pkey".

(** The SQL statements the three processes execute. *)
Inductive Stmt :=
| InsertJob (id filename : string)
    (* INSERT INTO jobs (id, filename, status) VALUES ($1,$2,'queued') *)
| UpdateStatus (id status : string) (errMsg : option string)
    (* UPDATE jobs SET status=$2, error=$3 WHERE id=$1 *)
| UpdateDone (id : string)
    (* UPDATE jobs SET status='done', completed_at=now() WHERE id=$1 *)
| UpsertQC (row : QCRow).
    (* INSERT INTO qc_results (...) VALUES (...) ON CONFLICT (job_id) DO UPDATE SET ... *)

(** The row [INSERT INTO jobs (id, filename, status) VALUES ($1,$2,'queued')]
    creates: the other columns take their defaults. *)
Definition new_job (id filename : string) (now : Z) : JobRow :=
  {| j_id := id; j_filename := filename; j_status := "queued"; j_error := None;
     j_submitted_at := now; j_completed_at := None |}.

(** [SET status=$2, error=$3] on a row. *)
Definition with_status (j : JobRow) (status : string) (errMsg : option string) : JobRow :=
  {| j_id := j_id j; j_filename := j_filename j;
     j_status := status; j_error := errMsg;
     j_submitted_at := j_submitted_at j;
     j_completed_at := j_completed_at j |}.

(** [SET status='done', completed_at=now()] on a row. *)
Definition with_done (j : JobRow) (now : Z) : JobRow :=
  {| j_id := j_id j; j_filename := j_filename j;
     j_status := "done"; j_error := j_error j;
     j_submitted_at := j_submitted_at j;
     j_completed_at := Some now |}.

(** [UPDATE jobs SET ... WHERE id=$1]: every row with that id is rewritten. *)
Definition update_jobs (id : string) (set : JobRow -> JobRow) (t : list JobRow)
  : list JobRow :=
  map (fun j => if String.eqb (j_id j) id then set j else j) t.

(** ON CONFLICT (job_id) DO UPDATE SET col = EXCLUDED.col for the five
    columns that are not the key: the row in conflict keeps its place and its
    key. *)
Fixpoint upsert_row (r : QCRow) (t : list QCRow) : list QCRow :=
  match t with
  | [] => [r]
  | x :: t' =>
      if String.eqb (qc_job_id x) (qc_job_id r)
      then {| qc_job_id := qc_job_id x;
              qc_reads := qc_reads r;
              qc_avg_read_length := qc_avg_read_length r;
              qc_gc_content := qc_gc_content r;
              qc_n_content := qc_n_content r;
              qc_processing_ms := qc_processing_ms r |} :: t'
      else x :: upsert_row r t'
  end.

(** One statement on the database at time [now]: the new state, or the
    statement's error with the state unchanged. *)
Definition run_stmt (now : Z) (q : Stmt) (db : DB) : DB * option string :=
  match q with
  | InsertJob id filename =>
      if has_job id db then (db, Some err_pkey)
      else ({| jobs := jobs db ++ [new_job id filename now];
               qc_results := qc_results db |}, None)
  | UpdateStatus id status errMsg =>
      if has_job id db && negb (status_check status) then (db, Some err_check)
      else ({| jobs := update_jobs id (fun j => with_status j status errMsg) (jobs db);
               qc_results := qc_results db |}, None)
  | UpdateDone id =>
      ({| jobs := update_jobs id (fun j => with_done j now) (jobs db);
          qc_results := qc_results db |}, None)
  | UpsertQC r =>
      if has_job (qc_job_id r) db
      then ({| jobs := jobs db; qc_results := upsert_row r (qc_results db) |}, None)
      else (db, Some err_fkey)
  end.

(** [db.Exec]: when the call fails for a reason the tables do not show
    ([fault]: the connection is lost, an id is not a UUID, a value does not
    fit its column) the statement has no effect; otherwise the statement
    runs. *)
Definition Exec (fault : option string) (now : Z) (q : Stmt) (db : DB)
  : DB * option string :=
  match fault with
  | Some e => (db, Some e)
  | None => run_stmt now q db
  end.

End Store.

(* ================================================================== *)
(** ** The work item on the queue *)
(* ================================================================== *)

Module Wire.

(** [type QueueMessage struct], declared alike by the producer and the
    consumer. *)
Record QueueMessage := mkMsg {
  JobID : string;
  Path : string;
  Compression : string
}.

End Wire.

(* ================================================================== *)
(** ** services/qc-worker/main.go *)
(* ================================================================== *)

Module Worker.
Import Go Store Wire.

(** What [os.Open(path)] and the [bufio.Scanner] over the file give: the open
    fails, or the scanner delivers [lines] (one per successful [sc.Scan()],
    line terminators removed) and then stops with [sc.Err()], which is
    [None] at the end of the file and an error after a failed read or a line
    longer than the buffer. *)
Inductive File :=
| OpenError (e : string)
| Stream (lines : list string) (scanErr : option string).

(** The local variables of the scan loop of [processFASTQ]. *)
Record Counters := mkCounters {
  lineIdx : Z;
  totalReads : Z;
  totalBases : Z;
  gcCount : Z;
  nCount : Z
}.

Definition isGC (c : ascii) : bool :=
  Ascii.eqb c "G" || Ascii.eqb c "g" || Ascii.eqb c "C" || Ascii.eqb c "c".

Definition isN (c : ascii) : bool :=
  Ascii.eqb c "N" || Ascii.eqb c "n".

(** The body of [for i := 0; i < len(seq); i++ { switch seq[i] {...} }] on
    the pair (gcCount, nCount). *)
Definition scan_byte (acc : Z * Z) (c : ascii) : Z * Z :=
  if isGC c then (wrap64 (fst acc + 1), snd acc)
  else if isN c then (fst acc, wrap64 (snd acc + 1))
  else acc.

Definition scan_seq (seq : string) (acc : Z * Z) : Z * Z :=
  fold_left scan_byte (list_ascii_of_string seq) acc.

(** One iteration of [for sc.Scan() { line := sc.Text(); ... lineIdx++ }].
    [%] is Go's remainder, which truncates ([Z.rem]). *)
Definition scan_line (c : Counters) (line : string) : Counters :=
  if Z.rem (lineIdx c) 4 =? 1 then
    let seq := TrimSpace line in
    let l := len seq in
    let acc := scan_seq seq (gcCount c, nCount c) in
    {| lineIdx := wrap64 (lineIdx c + 1);
       totalReads := wrap64 (totalReads c + 1);
       totalBases := wrap64 (totalBases c + l);
       gcCount := fst acc;
       nCount := snd acc |}
  else
    {| lineIdx := wrap64 (lineIdx c + 1);
       totalReads := totalReads c;
       totalBases := totalBases c;
       gcCount := gcCount c;
       nCount := nCount c |}.

Definition counters0 : Counters :=
  {| lineIdx := 0; totalReads := 0; totalBases := 0; gcCount := 0; nCount := 0 |}.

Definition scan (lines : list string) : Counters :=
  fold_left scan_line lines counters0.

(** [avgLen], [gcFrac] and [nFrac]: zero-valued [float64] variables, assigned
    under the guards [totalReads > 0] and [totalBases > 0]. *)
Definition avgLen (c : Counters) : float :=
  if 0 <? totalReads c
  then PrimFloat.div (float64_of_int64 (totalBases c)) (float64_of_int64 (totalReads c))
  else 0%float.

Definition gcFrac (c : Counters) : float :=
  if 0 <? totalBases c
  then PrimFloat.div (float64_of_int64 (gcCount c)) (float64_of_int64 (totalBases c))
  else 0%float.

Definition nFrac (c : Counters) : float :=
  if 0 <? totalBases c
  then PrimFloat.div (float64_of_int64 (nCount c)) (float64_of_int64 (totalBases c))
  else 0%float.

(** The row handed to the INSERT ... ON CONFLICT statement. *)
Definition result_row (jobID : string) (c : Counters) (ms : Z) : QCRow :=
  {| qc_job_id := jobID;
     qc_reads := totalReads c;
     qc_avg_read_length := avgLen c;
     qc_gc_content := gcFrac c;
     qc_n_content := nFrac c;
     qc_processing_ms := ms |}.

(** What the worker does to the outside, in order: statements on the
    database (with the error reported and the state they leave) and
    acknowledgments on the delivery. *)
Inductive Event :=
| EvExec (q : Stmt) (err : option string) (after : DB)
| EvAck (multiple : bool)
| EvNack (multiple requeue : bool).

(** The worker's view of the world: the database behind the package-level
    [db], the effects so far, and the Prometheus collectors. *)
Record State := mkState {
  db : DB;
  trace : list Event;
  jobsProcessed : Z;
  jobFailures : Z;
  jobDuration : list Z
}.

Definition start (d : DB) : State :=
  {| db := d; trace := []; jobsProcessed := 0; jobFailures := 0; jobDuration := [] |}.

(** What the environment decides during one delivery. *)
Record Env := mkEnv {
  fs : string -> File;               (* the upload volume *)
  now : Z;                           (* the database clock *)
  analysis_ms : Z;                   (* time.Since(start) in processFASTQ *)
  elapsed_ms : Z;                    (* time.Since(start) in the loop *)
  fault_processing : option string;  (* db.Exec failing in setStatus(.., "processing", ..) *)
  fault_upsert : option string;      (* db.Exec failing in processFASTQ *)
  fault_error : option string;       (* db.Exec failing in setStatus(.., "error", ..) *)
  fault_done : option string         (* db.Exec failing in setDone *)
}.

Definition db_Exec (fault : option string) (now : Z) (q : Stmt) (w : State)
  : State * option string :=
  let r := Exec fault now q (db w) in
  ({| db := fst r;
      trace := trace w ++ [EvExec q (snd r) (fst r)];
      jobsProcessed := jobsProcessed w;
      jobFailures := jobFailures w;
      jobDuration := jobDuration w |}, snd r).

Definition emit (e : Event) (w : State) : State :=
  {| db := db w;
     trace := trace w ++ [e];
     jobsProcessed := jobsProcessed w;
     jobFailures := jobFailures w;
     jobDuration := jobDuration w |}.

(** [d.Ack(false)] and [d.Nack(false, false)]; the error either returns is
    dropped by the caller. *)
Definition Ack (multiple : bool) (w : State) : State := emit (EvAck multiple) w.
Definition Nack (multiple requeue : bool) (w : State) : State :=
  emit (EvNack multiple requeue) w.

Definition jobsProcessed_Inc (w : State) : State :=
  {| db := db w; trace := trace w;
     jobsProcessed := jobsProcessed w + 1;
     jobFailures := jobFailures w;
     jobDuration := jobDuration w |}.

Definition jobFailures_Inc (w : State) : State :=
  {| db := db w; trace := trace w;
     jobsProcessed := jobsProcessed w;
     jobFailures := jobFailures w + 1;
     jobDuration := jobDuration w |}.

Definition jobDuration_Observe (ms : Z) (w : State) : State :=
  {| db := db w; trace := trace w;
     jobsProcessed := jobsProcessed w;
     jobFailures := jobFailures w;
     jobDuration := jobDuration w ++ [ms] |}.

(** [func setStatus(jobID, status string, errMsg *string) error] *)
Definition setStatus (fault : option string) (now : Z)
    (jobID status : string) (errMsg : option string) (w : State)
  : State * option string :=
  db_Exec fault now (UpdateStatus jobID status errMsg) w.

(** [func setDone(jobID string) error] *)
Definition setDone (fault : option string) (now : Z) (jobID : string) (w : State)
  : State * option string :=
  db_Exec fault now (UpdateDone jobID) w.

(** [func processFASTQ(jobID, path string) error] *)
Definition processFASTQ (e : Env) (jobID path : string) (w : State)
  : State * option string :=
  match fs e path with
  | OpenError err => (w, Some err)
  | Stream lines scanErr =>
      let c := scan lines in
      match scanErr with
      | Some err => (w, Some err)
      | None =>
          db_Exec (fault_upsert e) (now e)
                  (UpsertQC (result_row jobID c (analysis_ms e))) w
      end
  end.

Section Consume.

(** [json.Unmarshal(d.Body, &msg)]: the message, or [None] for an error. *)
Variable json_Unmarshal : string -> option QueueMessage.

(** The body of [for d := range msgs { ... }] for the delivery with body
    [body].  Logging is left out. *)
Definition handleDelivery (e : Env) (body : string) (w : State) : State :=
  match json_Unmarshal body with
  | None =>
      let w := Nack false false w in
      jobFailures_Inc w
  | Some msg =>
      let w := fst (setStatus (fault_processing e) (now e) (JobID msg) "processing" None w) in
      let r := processFASTQ e (JobID msg) (Path msg) w in
      let w := fst r in
      match snd r with
      | Some err =>
          let w := Nack false false w in
          let w := fst (setStatus (fault_error e) (now e) (JobID msg) "error" (Some err) w) in
          jobFailures_Inc w
      | None =>
          let w := Ack false w in
          let w := jobsProcessed_Inc w in
          let w := jobDuration_Observe (elapsed_ms e) w in
          fst (setDone (fault_done e) (now e) (JobID msg) w)
      end
  end.

(** The consume loop over the deliveries the channel hands out, each with
    what the environment decides while it is handled. *)
Definition consume (ds : list (Env * string)) (w : State) : State :=
  fold_left (fun w d => handleDelivery (fst d) (snd d) w) ds w.

End Consume.

(** The database states another process can see while the worker runs:
    the ones left by its statements. *)
Definition snapshots (t : list Event) : list DB :=
  flat_map (fun ev => match ev with EvExec _ _ d => [d] | _ => [] end) t.

End Worker.

(* ================================================================== *)
(** ** services/ingress-api/main.go *)
(* ================================================================== *)

Module Ingress.
Import Go Store Wire.

(** The request as [handleSubmit] reads it. *)
Inductive Request :=
| BadForm                                   (* r.ParseMultipartForm fails *)
| NoFile                                    (* r.FormFile("file") fails *)
| Upload (filename : string) (content : string).

(** What the environment decides during one request. *)
Record Env := mkEnv {
  uploadDir : string;
  new_uuid : string;                 (* uuid.New().String() *)
  now : Z;                           (* the database clock *)
  mkdir_err : bool;                  (* os.MkdirAll fails *)
  create_err : bool;                 (* os.Create fails *)
  write_err : option string;         (* out.ReadFrom fails after writing this much *)
  fault_insert : option string;      (* db.Exec fails *)
  publish_err : bool                 (* amqpCh.PublishWithContext fails *)
}.

(** The upload volume, the database behind [db] and the bodies published on
    [qc.jobs], oldest first. *)
Record State := mkState {
  files : list (string * string);
  db : DB;
  queue : list string
}.

Record Response := mkResponse {
  code : Z;
  body : string
}.

Definition newline : string := String (ascii_of_nat 10) EmptyString.
Definition dquote : string := String (ascii_of_nat 34) EmptyString.

(** [http.Error(w, msg, code)] *)
Definition http_Error (msg : string) (c : Z) : Response :=
  {| code := c; body := msg ++ newline |}.

Definition StatusOK : Z := 200.
Definition StatusBadRequest : Z := 400.
Definition StatusInternalServerError : Z := 500.

(** The file at [path] created, or truncated, and filled with [content]. *)
Definition write_file (path content : string) (fs : list (string * string))
  : list (string * string) :=
  (path, content) :: filter (fun f => negb (String.eqb (fst f) path)) fs.

Section Submit.

(** [filepath.Base], [filepath.Join(dir, name)] and [json.Marshal] of a
    [QueueMessage]. *)
Variable filepath_Base : string -> string.
Variable filepath_Join : string -> string -> string.
Variable json_Marshal : QueueMessage -> string.

(** [func handleSubmit(w http.ResponseWriter, r *http.Request)] *)
Definition handleSubmit (e : Env) (r : Request) (s : State) : State * Response :=
  match r with
  | BadForm => (s, http_Error "invalid form" StatusBadRequest)
  | NoFile => (s, http_Error "file field is required" StatusBadRequest)
  | Upload name content =>
      if mkdir_err e then (s, http_Error "server storage error" StatusInternalServerError)
      else
        let filename := filepath_Base name in
        let jobID := new_uuid e in
        let dstPath := filepath_Join (uploadDir e) (jobID ++ "_" ++ filename) in
        if create_err e then (s, http_Error "failed to save file" StatusInternalServerError)
        else
          match write_err e with
          | Some written =>
              ({| files := write_file dstPath written (files s);
                  db := db s; queue := queue s |},
               http_Error "failed to write file" StatusInternalServerError)
          | None =>
              let fs1 := write_file dstPath content (files s) in
              (* record job *)
              let r1 := Exec (fault_insert e) (now e) (InsertJob jobID filename) (db s) in
              match snd r1 with
              | Some _ =>
                  ({| files := fs1; db := fst r1; queue := queue s |},
                   http_Error "db error" StatusInternalServerError)
              | None =>
                  (* publish message *)
                  let msg := {| JobID := jobID; Path := dstPath; Compression := "none" |} in
                  let body := json_Marshal msg in
                  if publish_err e
                  then ({| files := fs1; db := fst r1; queue := queue s |},
                        http_Error "queue error" StatusInternalServerError)
                  else ({| files := fs1; db := fst r1; queue := queue s ++ [body] |},
                        {| code := StatusOK;
                           body := "{" ++ dquote ++ "job_id" ++ dquote ++ ":"
                                   ++ dquote ++ jobID ++ dquote ++ "}" |})
              end
          end
  end.

End Submit.

End Ingress.

(* ================================================================== *)
(** ** The results API *)
(* ================================================================== *)

Module Results.
Import Store.

(** [type Resp struct { Job *Job; QC *QC `json:"qc,omitempty"` }]; the
    timestamps stand for their [to_char] renderings. *)
Record Resp := mkResp {
  Job : JobRow;
  QC : option QCRow
}.

Inductive Response :=
| NotFound                       (* http.Error(w, "job not found", 404) *)
| OK (r : Resp).

(** [func handleGetJob(w http.ResponseWriter, r *http.Request)], for the
    path variable [id]; [fault_job] and [fault_qc] say whether the first and
    the second query fail on the connection. *)
Definition handleGetJob (fault_job fault_qc : bool) (d : DB) (id : string) : Response :=
  match (if fault_job then None else find_job id d) with
  | None => NotFound
  | Some job =>
      let qc := if fault_qc then None else find_qc id d in
      OK {| Job := job; QC := qc |}
  end.

End Results.

(* ================================================================== *)
(** ** Vocabulary of the specification *)
(* ================================================================== *)

Module Spec.
Import Go Store Worker.

(** The four job states, as the [status] column spells them. *)
Definition Queued : string := "queued".
Definition Processing : string := "processing".
Definition Done : string := "done".
Definition Failed : string := "error".

Definition terminal (s : string) : bool := String.eqb s Done || String.eqb s Failed.



(** The number of bytes that are in class [p]. *)
Definition countb (p : ascii -> bool) (bs : list ascii) : Z :=
  Z.of_nat (List.length (filter p bs)).

Definition count_bytes (p : ascii -> bool) (s : string) : Z :=
  countb p (list_ascii_of_string s).

Definition sumZ (l : list Z) : Z := fold_right Z.add 0 l.




(** The stream is one a file can hold: fewer than [2^63] lines and fewer than
    [2^63] bytes in them. *)
Definition fits_int64 (lines : list string) : Prop :=
  Z.of_nat (List.length lines) < 2 ^ 63 /\ sumZ (map len lines) < 2 ^ 63.

(** The quotient of two counters as the code takes it: both converted to
    [float64], then divided. *)
Definition ratio (a b : Z) : float :=
  PrimFloat.div (float64_of_int64 a) (float64_of_int64 b).

(** A run of white-space runes (UTF-8 encoded). *)
Inductive white : list ascii -> Prop :=
| white_nil : white []
| white_1 a t : asciiSpace a = true -> white t -> white (a :: t)
| white_2 a b t : space2 a b = true -> white t -> white (a :: b :: t)
| white_3 a b c t : space3 a b c = true -> white t -> white (a :: b :: c :: t).

(** The bytes start with a white-space rune. *)
Definition starts_with_space (s : list ascii) : bool :=
  match s with
  | a :: t1 =>
      asciiSpace a
      || match t1 with
         | b :: t2 =>
             space2 a b
             || match t2 with
                | c :: _ => space3 a b c
                | [] => false
                end
         | [] => false
         end
  | [] => false
  end.

(** The same test on the bytes in reverse order. *)
Definition starts_with_space_rev (s : list ascii) : bool :=
  match s with
  | c :: t1 =>
      asciiSpace c
      || match t1 with
         | b :: t2 =>
             space2 b c
             || match t2 with
                | a :: _ => space3 a b c
                | [] => false
                end
         | [] => false
         end
  | [] => false
  end.

(** The bytes end with a white-space rune. *)
Definition ends_with_space (s : list ascii) : bool :=
  starts_with_space_rev (rev s).

(** Trailing white space stripped and nothing else: the reading of the
    content-line rule that trims on the right only. *)
Definition strip_trailing (s : string) : string :=
  string_of_list_ascii (trimRight (list_ascii_of_string s)).

(** Every job in state Done has a Metrics Result row. *)
Definition done_has_result (d : DB) : Prop :=
  forall j, In j (jobs d) -> j_status j = Done -> find_qc (j_id j) d <> None.

(** The two directions of "a Metrics Result exists iff its Job is Done", for
    one job. *)
Definition result_iff_done (d : DB) (id : string) : Prop :=
  forall j, find_job id d = Some j -> (find_qc id d <> None <-> j_status j = Done).

(** "completed_at is null iff state is Queued or Processing", for one row. *)
Definition completed_iff_terminal (j : JobRow) : Prop :=
  j_completed_at j = None <-> (j_status j = Queued \/ j_status j = Processing).

(** PRIMARY KEY of [jobs] and of [qc_results]. *)
Definition keys_unique (d : DB) : Prop :=
  NoDup (map j_id (jobs d)) /\ NoDup (map qc_job_id (qc_results d)).

(** An [int64] value. *)
Definition is_int64 (z : Z) : Prop := - 2 ^ 63 <= z < 2 ^ 63.

(** Every job in state Done has a completion time. *)
Definition done_has_completed (d : DB) : Prop :=
  forall j, In j (jobs d) -> j_status j = Done -> j_completed_at j <> None.

(** A property of the database holds now and held after every statement of
    the worker so far. *)
Definition holds_throughout (P : DB -> Prop) (w : State) : Prop :=
  P (db w) /\ Forall P (snapshots (trace w)).

(** The effects of the coordinator, without their payloads. *)
Inductive Effect :=
| EffInsert (id : string)
| EffStatus (id status : string)
| EffUpsert (id : string)
| EffDone (id : string)
| EffAck
| EffNack (requeue : bool).

Definition effect_of (ev : Event) : Effect :=
  match ev with
  | EvExec (InsertJob id _) _ _ => EffInsert id
  | EvExec (UpdateStatus id s _) _ _ => EffStatus id s
  | EvExec (UpsertQC r) _ _ => EffUpsert (qc_job_id r)
  | EvExec (UpdateDone id) _ _ => EffDone id
  | EvAck _ => EffAck
  | EvNack _ requeue => EffNack requeue
  end.

Definition effects (w : State) : list Effect := map effect_of (trace w).

(** A statement that moves a job to Processing writes a null failure
    reason. *)
Definition processing_clears_reason (ev : Event) : Prop :=
  match ev with
  | EvExec (UpdateStatus _ s reason) _ _ => s = Processing -> reason = None
  | _ => True
  end.

(** The acknowledgments among the worker's effects. *)
Definition acks (w : State) : list Event :=
  filter (fun ev => match ev with EvAck _ | EvNack _ _ => true | EvExec _ _ _ => false end)
         (trace w).

(** [a] occurs before [b] in [l]. *)
Definition precedes {A : Type} (a b : A) (l : list A) : Prop :=
  exists l1 l2 l3, l = (l1 ++ a :: l2 ++ b :: l3)%list.

(** The content of a stored file, if any. *)
Definition file_content (path : string) (fs : list (string * string)) : option string :=
  option_map snd (find (fun f => String.eqb (fst f) path) fs).

End Spec.

(* ================================================================== *)
(** ** Concrete inputs *)
(* ================================================================== *)

Module Examples.
Import Go Store Wire Spec.

(** The two-record stream of the specification's scenario. *)
Definition ex_lines : list string :=
  [ "@r1"; "ACGTACGTAC"; "+"; "IIIIIIIIII";
    "@r2"; "NNNNACGTAC"; "+"; "IIIIIIIIII" ].

Definition ex_path : string := "/data/uploads/job-1_tiny.fastq".

Definition ex_fs (path : string) : Worker.File :=
  if String.eqb path ex_path then Worker.Stream ex_lines None
  else Worker.OpenError "open: no such file or directory".

(** A delivery during which nothing fails on the database side. *)
Definition ex_env : Worker.Env :=
  {| Worker.fs := ex_fs; Worker.now := 101;
     Worker.analysis_ms := 3; Worker.elapsed_ms := 5;
     Worker.fault_processing := None; Worker.fault_upsert := None;
     Worker.fault_error := None; Worker.fault_done := None |}.

(** The same, but the connection is lost when [setDone] runs. *)
Definition ex_env_done_fails : Worker.Env :=
  {| Worker.fs := ex_fs; Worker.now := 101;
     Worker.analysis_ms := 3; Worker.elapsed_ms := 5;
     Worker.fault_processing := None; Worker.fault_upsert := None;
     Worker.fault_error := None; Worker.fault_done := Some "connection lost" |}.

Definition ex_msg : QueueMessage :=
  {| JobID := "job-1"; Path := ex_path; Compression := "none" |}.

(** A work item whose input location cannot be opened. *)
Definition ex_msg_missing : QueueMessage :=
  {| JobID := "job-1"; Path := "/data/uploads/missing"; Compression := "none" |}.

(** A decoder for three bodies. *)
Definition ex_Unmarshal (body : string) : option QueueMessage :=
  if String.eqb body "item" then Some ex_msg
  else if String.eqb body "item-missing" then Some ex_msg_missing
  else None.

Definition ex_job (status : string) (err : option string) (completed : option Z)
  : JobRow :=
  {| j_id := "job-1"; j_filename := "tiny.fastq"; j_status := status;
     j_error := err; j_submitted_at := 100; j_completed_at := completed |}.

Definition ex_row : QCRow :=
  {| qc_job_id := "job-1"; qc_reads := 2;
     qc_avg_read_length := ratio 20 2;
     qc_gc_content := ratio 8 20;
     qc_n_content := ratio 4 20;
     qc_processing_ms := 3 |}.

(** Another result for the same job. *)
Definition ex_row' : QCRow :=
  {| qc_job_id := "job-1"; qc_reads := 7;
     qc_avg_read_length := ratio 70 7;
     qc_gc_content := ratio 35 70;
     qc_n_content := ratio 0 70;
     qc_processing_ms := 9 |}.

Definition ex_queued_db : DB :=
  {| jobs := [ex_job Queued None None]; qc_results := [] |}.

Definition ex_done_db : DB :=
  {| jobs := [ex_job Done None (Some 101)]; qc_results := [ex_row] |}.

Definition ex_failed_db : DB :=
  {| jobs := [ex_job Failed (Some "open: no such file or directory") None];
     qc_results := [] |}.

(** The job still Processing, its result already stored. *)
Definition ex_processing_with_row_db : DB :=
  {| jobs := [ex_job Processing None None]; qc_results := [ex_row] |}.

(** The counters at the content line of the first group. *)
Definition ex_counters : Worker.Counters :=
  {| Worker.lineIdx := 1; Worker.totalReads := 0; Worker.totalBases := 0;
     Worker.gcCount := 0; Worker.nCount := 0 |}.

(** A content line with white space on both sides. *)
Definition ex_padded : string := " ACGT ".

Definition ex_Base (name : string) : string := name.
Definition ex_Join (dir name : string) : string := dir ++ "/" ++ name.
Definition ex_Marshal (m : QueueMessage) : string :=
  JobID m ++ "|" ++ Path m ++ "|" ++ Compression m.

(** A request during which nothing fails. *)
Definition ex_submit_env : Ingress.Env :=
  {| Ingress.uploadDir := "/data/uploads"; Ingress.new_uuid := "job-1";
     Ingress.now := 100;
     Ingress.mkdir_err := false; Ingress.create_err := false;
     Ingress.write_err := None; Ingress.fault_insert := None;
     Ingress.publish_err := false |}.

(** The same, but the publish fails. *)
Definition ex_submit_env_queue_down : Ingress.Env :=
  {| Ingress.uploadDir := "/data/uploads"; Ingress.new_uuid := "job-1";
     Ingress.now := 100;
     Ingress.mkdir_err := false; Ingress.create_err := false;
     Ingress.write_err := None; Ingress.fault_insert := None;
     Ingress.publish_err := true |}.

(** The same, but the INSERT fails. *)
Definition ex_submit_env_db_down : Ingress.Env :=
  {| Ingress.uploadDir := "/data/uploads"; Ingress.new_uuid := "job-1";
     Ingress.now := 100;
     Ingress.mkdir_err := false; Ingress.create_err := false;
     Ingress.write_err := None; Ingress.fault_insert := Some "connection lost";
     Ingress.publish_err := false |}.

Definition ex_submit_state : Ingress.State :=
  {| Ingress.files := []; Ingress.db := empty_db; Ingress.queue := [] |}.

Definition ex_upload : Ingress.Request := Ingress.Upload "tiny.fastq" "@r1".

End Examples.

(* ================================================================== *)
(** ** Further vocabulary: what the code keeps and what it never does *)
(* ================================================================== *)

Module Laws.
Import Go Store Wire Worker Spec.

(** The lines the scan loop counts: those at an index that is 1 modulo 4,
    the one of a truncated last group included. *)
Fixpoint content_positions (lines : list string) : list string :=
  match lines with
  | _ :: c :: rest =>
      c :: match rest with
           | _ :: _ :: rest' => content_positions rest'
           | _ => []
           end
  | _ => []
  end.

(** Length, GC count and N count of content lines, each after [TrimSpace]. *)
Definition sum_len (cs : list string) : Z :=
  sumZ (map (fun c => len (TrimSpace c)) cs).

Definition sum_gc (cs : list string) : Z :=
  sumZ (map (fun c => count_bytes isGC (TrimSpace c)) cs).

Definition sum_n (cs : list string) : Z :=
  sumZ (map (fun c => count_bytes isN (TrimSpace c)) cs).

(** The columns of a job that say which job it is. *)
Definition job_identity (j : JobRow) : string * string * Z :=
  (j_id j, j_filename j, j_submitted_at j).

(** The job a statement is about. *)
Definition stmt_job (q : Stmt) : string :=
  match q with
  | InsertJob id _ => id
  | UpdateStatus id _ _ => id
  | UpdateDone id => id
  | UpsertQC r => qc_job_id r
  end.

(** A statement the worker issues: anything but the INSERT of a job. *)
Definition worker_stmt (q : Stmt) : bool :=
  match q with
  | InsertJob _ _ => false
  | _ => true
  end.

(** Statements run one after the other, each with its own fault. *)
Definition run_stmts (now : Z) (qs : list (option string * Stmt)) (d : DB) : DB :=
  fold_left (fun d fq => fst (Exec (fst fq) now (snd fq) d)) qs d.

(** What the schema of [initTables] promises: unique keys, every result
    refers to a job, every status is one of the four. *)
Definition schema_ok (d : DB) : Prop :=
  keys_unique d
  /\ (forall r, In r (qc_results d) -> has_job (qc_job_id r) d = true)
  /\ (forall j, In j (jobs d) -> status_check (j_status j) = true).

Definition is_ack (ev : Event) : bool :=
  match ev with EvAck _ => true | _ => false end.

Definition is_nack (ev : Event) : bool :=
  match ev with EvNack _ _ => true | _ => false end.

(** The two acknowledgments the loop ever sends. *)
Definition single_ack_or_discard (ev : Event) : Prop :=
  ev = EvAck false \/ ev = EvNack false false.

(** The row a delivery that succeeds in every step leaves for its job. *)
Definition done_row (j : JobRow) (now : Z) : JobRow :=
  {| j_id := j_id j; j_filename := j_filename j;
     j_status := Done; j_error := None;
     j_submitted_at := j_submitted_at j;
     j_completed_at := Some now |}.

(** A delivery during which no statement fails on the connection. *)
Definition no_faults (e : Env) : Prop :=
  fault_processing e = None /\ fault_upsert e = None
  /\ fault_error e = None /\ fault_done e = None.

(** Two worker states with the same acknowledgments and collectors. *)
Definition same_accounts (w1 w2 : State) : Prop :=
  acks w1 = acks w2
  /\ jobsProcessed w1 = jobsProcessed w2
  /\ jobFailures w1 = jobFailures w2
  /\ jobDuration w1 = jobDuration w2.

(** The database a delivery leaves when the file is read and the three
    statements go through: the job's row is [done_row], the result is
    upserted. *)
Definition delivered (id : string) (row : QCRow) (now : Z) (d : DB) : DB :=
  {| jobs := update_jobs id (fun j => done_row j now) (jobs d);
     qc_results := upsert_row row (qc_results d) |}.

(** The work item [handleSubmit] builds for an upload named [name]. *)
Definition submitted_item (Base : string -> string) (Join : string -> string -> string)
    (e : Ingress.Env) (name : string) : QueueMessage :=
  {| JobID := Ingress.new_uuid e;
     Path := Join (Ingress.uploadDir e) (Ingress.new_uuid e ++ "_" ++ Base name);
     Compression := "none" |}.

End Laws.

Module Examples2.
Import Go Store Wire Spec Examples.

(** Two complete records and a third cut off after its content line. *)
Definition ex_lines_truncated : list string :=
  (ex_lines ++ [ "@r3"; "GGCC" ])%list.

(** The same stream with other headers, separators and quality lines. *)
Definition ex_lines_other_framing : list string :=
  [ "x"; "ACGTACGTAC"; ""; "!";
    "@@"; "NNNNACGTAC"; "-"; "" ].

(** A stream whose content lines are blank. *)
Definition ex_lines_blank : list string :=
  [ "@r1"; "   "; "+"; "" ].

Definition ex_fs_blank (path : string) : Worker.File :=
  if String.eqb path ex_path then Worker.Stream ex_lines_blank None
  else Worker.OpenError "open: no such file or directory".

Definition ex_env_blank : Worker.Env :=
  {| Worker.fs := ex_fs_blank; Worker.now := 101;
     Worker.analysis_ms := 3; Worker.elapsed_ms := 5;
     Worker.fault_processing := None; Worker.fault_upsert := None;
     Worker.fault_error := None; Worker.fault_done := None |}.

(** A second delivery of the same job, later and slower. *)
Definition ex_env_later : Worker.Env :=
  {| Worker.fs := ex_fs; Worker.now := 205;
     Worker.analysis_ms := 4; Worker.elapsed_ms := 6;
     Worker.fault_processing := None; Worker.fault_upsert := None;
     Worker.fault_error := None; Worker.fault_done := None |}.

(** A work item for a job that is not in the table. *)
Definition ex_msg_unknown : QueueMessage :=
  {| JobID := "job-9"; Path := ex_path; Compression := "none" |}.

Definition ex_Unmarshal2 (body : string) : option QueueMessage :=
  if String.eqb body "item-unknown" then Some ex_msg_unknown
  else ex_Unmarshal body.

(** The inverse of [ex_Marshal] on the one message of the examples. *)
Definition ex_Unmarshal_wire (body : string) : option QueueMessage :=
  if String.eqb body "job-1|/data/uploads/job-1_tiny.fastq|none" then Some ex_msg
  else None.

(** Two jobs, the second with a result. *)
Definition ex_two_jobs_db : DB :=
  {| jobs := [ ex_job Queued None None;
               {| j_id := "job-2"; j_filename := "other.fastq"; j_status := Done;
                  j_error := None; j_submitted_at := 90; j_completed_at := Some 95 |} ];
     qc_results := [ {| qc_job_id := "job-2"; qc_reads := 1;
                        qc_avg_read_length := ratio 4 1;
                        qc_gc_content := ratio 2 4;
                        qc_n_content := ratio 0 4;
                        qc_processing_ms := 1 |} ] |}.

(** A no-break space (U+00A0, two bytes) and a carriage return. *)
Definition ex_nbsp_cr : string :=
  String (ascii_of_nat 194) (String (ascii_of_nat 160) (String (ascii_of_nat 13) EmptyString)).

End Examples2.

(* ================================================================== *)
(** * Properties *)
(* ================================================================== *)

Import Go Store Wire Spec Examples.

(** ** Integers and strings of the Go runtime *)

Lemma wrap64_id (z : Z) : is_int64 z -> wrap64 z = z.
Proof.
  unfold is_int64, wrap64. intros H.
  rewrite Z.mod_small; lia.
Qed.

Lemma wrap64_range (z : Z) : is_int64 (wrap64 z).
Proof.
  unfold is_int64, wrap64.
  pose proof (Z.mod_pos_bound (z + 2 ^ 63) (2 ^ 64) ltac:(lia)). lia.
Qed.

Lemma wrap64_add_l (a b : Z) : wrap64 (wrap64 a + b) = wrap64 (a + b).
Proof.
  unfold wrap64.
  replace ((a + 2 ^ 63) mod 2 ^ 64 - 2 ^ 63 + b + 2 ^ 63)
    with ((a + 2 ^ 63) mod 2 ^ 64 + b) by lia.
  rewrite Zplus_mod_idemp_l. f_equal. f_equal. lia.
Qed.

Lemma length_string_of_list_ascii (l : list ascii) :
  String.length (string_of_list_ascii l) = List.length l.
Proof. induction l as [|a l IH]; simpl; congruence. Qed.

Lemma length_list_ascii_of_string (s : string) :
  List.length (list_ascii_of_string s) = String.length s.
Proof. induction s as [|a s IH]; simpl; congruence. Qed.

Lemma white_app (x y : list ascii) : white x -> white y -> white (x ++ y)%list.
Proof.
  intros Hx Hy. induction Hx; simpl; auto using white.
Qed.

(** [trimLeft] removes a run of white space and stops where no white-space
    rune starts. *)
Lemma trimLeft_split (s : list ascii) :
  exists l, s = (l ++ trimLeft s)%list /\ white l /\ starts_with_space (trimLeft s) = false.
Proof.
  remember (List.length s) as n eqn:Hn.
  revert s Hn. induction n as [n IH] using lt_wf_ind. intros s Hn.
  destruct s as [|a t1].
  - exists []. repeat split; constructor.
  - cbn [trimLeft]. destruct (asciiSpace a) eqn:Ha.
    + destruct (IH (List.length t1) ltac:(simpl in Hn; lia) t1 eq_refl)
        as (l & Hl & Hw & Hs).
      exists (a :: l). repeat split; auto.
      * simpl. now rewrite <- Hl.
      * now apply white_1.
    + destruct t1 as [|b t2].
      * exists []. repeat split; [constructor|]. simpl. now rewrite Ha.
      * destruct (space2 a b) eqn:Hb.
        { destruct (IH (List.length t2) ltac:(simpl in Hn; lia) t2 eq_refl)
            as (l & Hl & Hw & Hs).
          exists (a :: b :: l). repeat split; auto.
          - simpl. now rewrite <- Hl.
          - now apply white_2. }
        destruct t2 as [|c t3].
        { exists []. repeat split; [constructor|]. simpl. now rewrite Ha, Hb. }
        destruct (space3 a b c) eqn:Hc.
        { destruct (IH (List.length t3) ltac:(simpl in Hn; lia) t3 eq_refl)
            as (l & Hl & Hw & Hs).
          exists (a :: b :: c :: l). repeat split; auto.
          - simpl. now rewrite <- Hl.
          - now apply white_3. }
        exists []. repeat split; [constructor|]. simpl. now rewrite Ha, Hb, Hc.
Qed.

(** The same for the walk from the back. *)
Lemma trimLeftRev_split (s : list ascii) :
  exists l, s = (l ++ trimLeftRev s)%list /\ white (rev l)
            /\ starts_with_space_rev (trimLeftRev s) = false.
Proof.
  remember (List.length s) as n eqn:Hn.
  revert s Hn. induction n as [n IH] using lt_wf_ind. intros s Hn.
  destruct s as [|c t1].
  - exists []. repeat split; constructor.
  - cbn [trimLeftRev]. destruct (asciiSpace c) eqn:Ha.
    + destruct (IH (List.length t1) ltac:(simpl in Hn; lia) t1 eq_refl)
        as (l & Hl & Hw & Hs).
      exists (c :: l). repeat split; auto.
      * simpl. now rewrite <- Hl.
      * simpl. apply white_app; auto. apply white_1; auto. constructor.
    + destruct t1 as [|b t2].
      * exists []. repeat split; [constructor|]. simpl. now rewrite Ha.
      * destruct (space2 b c) eqn:Hb.
        { destruct (IH (List.length t2) ltac:(simpl in Hn; lia) t2 eq_refl)
            as (l & Hl & Hw & Hs).
          exists (c :: b :: l). repeat split; auto.
          - simpl. now rewrite <- Hl.
          - simpl. rewrite <- app_assoc. apply white_app; auto.
            simpl. apply white_2; auto. constructor. }
        destruct t2 as [|a t3].
        { exists []. repeat split; [constructor|]. simpl. now rewrite Ha, Hb. }
        destruct (space3 a b c) eqn:Hc.
        { destruct (IH (List.length t3) ltac:(simpl in Hn; lia) t3 eq_refl)
            as (l & Hl & Hw & Hs).
          exists (c :: b :: a :: l). repeat split; auto.
          - simpl. now rewrite <- Hl.
          - simpl. rewrite <- !app_assoc. apply white_app; auto.
            simpl. apply white_3; auto. constructor. }
        exists []. repeat split; [constructor|]. simpl. now rewrite Ha, Hb, Hc.
Qed.

Lemma trimRight_split (s : list ascii) :
  exists r, s = (trimRight s ++ r)%list /\ white r /\ ends_with_space (trimRight s) = false.
Proof.
  destruct (trimLeftRev_split (rev s)) as (l & Hl & Hw & Hs).
  exists (rev l). unfold trimRight, ends_with_space. repeat split; auto.
  - rewrite <- rev_app_distr, <- Hl. now rewrite rev_involutive.
  - now rewrite rev_involutive.
Qed.

Lemma starts_with_space_app (t r : list ascii) :
  starts_with_space t = true -> starts_with_space (t ++ r)%list = true.
Proof.
  destruct t as [|a [|b [|c t]]]; simpl; try discriminate; auto;
    destruct (asciiSpace a); simpl; auto; try discriminate;
    destruct (space2 a b); simpl; auto; discriminate.
Qed.

(** [TrimSpace] cuts a run of white space off each end and nothing else, and
    what it returns neither starts nor ends with white space. *)
Lemma TrimSpace_split (s : string) :
  exists l r,
    list_ascii_of_string s = (l ++ list_ascii_of_string (TrimSpace s) ++ r)%list
    /\ white l /\ white r
    /\ starts_with_space (list_ascii_of_string (TrimSpace s)) = false
    /\ ends_with_space (list_ascii_of_string (TrimSpace s)) = false.
Proof.
  unfold TrimSpace. rewrite list_ascii_of_string_of_list_ascii.
  destruct (trimLeft_split (list_ascii_of_string s)) as (l & Hl & Hwl & Hs).
  destruct (trimRight_split (trimLeft (list_ascii_of_string s))) as (r & Hr & Hwr & He).
  exists l, r. repeat split; auto.
  - now rewrite <- Hr.
  - destruct (starts_with_space (trimRight (trimLeft (list_ascii_of_string s)))) eqn:E; auto.
    apply (starts_with_space_app _ r) in E. rewrite <- Hr in E. congruence.
Qed.

Lemma len_nonneg (s : string) : 0 <= len s.
Proof. unfold len. lia. Qed.

Lemma len_TrimSpace_le (s : string) : len (TrimSpace s) <= len s.
Proof.
  destruct (TrimSpace_split s) as (l & r & H & _).
  apply (f_equal (@List.length ascii)) in H.
  rewrite !length_app, !length_list_ascii_of_string in H.
  unfold len. lia.
Qed.

(** ** The scan loop of [processFASTQ] *)

Import Worker.

Lemma countb_cons (p : ascii -> bool) (a : ascii) (bs : list ascii) :
  countb p (a :: bs) = (if p a then 1 else 0) + countb p bs.
Proof. unfold countb. simpl. destruct (p a); simpl List.length; lia. Qed.

Lemma countb_bounds (p : ascii -> bool) (bs : list ascii) :
  0 <= countb p bs <= Z.of_nat (List.length bs).
Proof. unfold countb. pose proof (filter_length_le p bs). lia. Qed.

Lemma count_bytes_bounds (p : ascii -> bool) (s : string) :
  0 <= count_bytes p s <= len s.
Proof.
  unfold count_bytes, len. rewrite <- length_list_ascii_of_string.
  apply countb_bounds.
Qed.

Lemma isGC_not_isN (c : ascii) : isGC c = true -> isN c = false.
Proof.
  unfold isGC. rewrite !orb_true_iff, !Ascii.eqb_eq.
  intros [[[->| ->]| ->]| ->]; reflexivity.
Qed.

(** The inner loop adds to the two counters the number of bytes of each
    class, modulo [2^64]. *)
Lemma scan_bytes_counts (bs : list ascii) :
  forall gc n, is_int64 gc -> is_int64 n ->
    fold_left scan_byte bs (gc, n)
    = (wrap64 (gc + countb isGC bs), wrap64 (n + countb isN bs)).
Proof.
  induction bs as [|a bs IH]; intros gc n Hgc Hn.
  - unfold countb. simpl. rewrite !Z.add_0_r, !wrap64_id; auto.
  - cbn [fold_left]. rewrite !countb_cons. unfold scan_byte at 2. cbn [fst snd].
    destruct (isGC a) eqn:Eg.
    + rewrite (isGC_not_isN a Eg).
      rewrite IH by auto using wrap64_range.
      rewrite wrap64_add_l. f_equal; f_equal; lia.
    + destruct (isN a) eqn:En.
      * rewrite IH by auto using wrap64_range.
        rewrite wrap64_add_l. f_equal; f_equal; lia.
      * rewrite IH by auto. f_equal; f_equal; lia.
Qed.

Lemma scan_seq_counts (seq : string) (gc n : Z) :
  is_int64 gc -> is_int64 n ->
  scan_seq seq (gc, n)
  = (wrap64 (gc + count_bytes isGC seq), wrap64 (n + count_bytes isN seq)).
Proof. intros. unfold scan_seq. now rewrite scan_bytes_counts. Qed.

Lemma rem4 (k r : Z) : 0 <= k -> 0 <= r < 4 -> Z.rem (4 * k + r) 4 = r.
Proof.
  intros Hk Hr. rewrite Z.rem_mod_nonneg by lia.
  replace (4 * k + r) with (r + k * 4) by lia.
  rewrite Z_mod_plus_full. apply Z.mod_small. lia.
Qed.

(** A line that is not at position 1 of its group only moves [lineIdx]. *)
Lemma scan_line_other (c : Counters) (line : string) :
  Z.rem (lineIdx c) 4 <> 1 ->
  scan_line c line
  = {| lineIdx := wrap64 (lineIdx c + 1); totalReads := totalReads c;
       totalBases := totalBases c; gcCount := gcCount c; nCount := nCount c |}.
Proof.
  intros H. unfold scan_line.
  destruct (Z.eqb_spec (Z.rem (lineIdx c) 4) 1); [contradiction|reflexivity].
Qed.

(** A line at position 1 is counted after [TrimSpace]. *)
Lemma scan_line_content (c : Counters) (line : string) :
  Z.rem (lineIdx c) 4 = 1 -> is_int64 (gcCount c) -> is_int64 (nCount c) ->
  scan_line c line
  = {| lineIdx := wrap64 (lineIdx c + 1);
       totalReads := wrap64 (totalReads c + 1);
       totalBases := wrap64 (totalBases c + len (TrimSpace line));
       gcCount := wrap64 (gcCount c + count_bytes isGC (TrimSpace line));
       nCount := wrap64 (nCount c + count_bytes isN (TrimSpace line)) |}.
Proof.
  intros H Hg Hn. unfold scan_line. rewrite H. cbn [Z.eqb Pos.eqb].
  rewrite scan_seq_counts by assumption. reflexivity.
Qed.

Lemma list_ind4 {A : Type} (P : list A -> Prop) :
  P [] -> (forall a, P [a]) -> (forall a b, P [a; b]) -> (forall a b c, P [a; b; c]) ->
  (forall a b c d rest, P rest -> P (a :: b :: c :: d :: rest)) ->
  forall l, P l.
Proof.
  intros H0 H1 H2 H3 H4.
  fix IH 1. intros [|a [|b [|c [|d rest]]]].
  - exact H0.
  - apply H1.
  - apply H2.
  - apply H3.
  - apply H4. apply IH.
Qed.

Lemma sumZ_len_nonneg (lines : list string) : 0 <= sumZ (map len lines).
Proof.
  induction lines as [|l lines IH]; simpl; [lia|]. pose proof (len_nonneg l). lia.
Qed.




(** One complete group, started at a multiple of four, with room left in
    every counter: no addition wraps. *)
Lemma scan_group (h c p q : string) (cs : Counters) (k : Z) :
  lineIdx cs = 4 * k -> 0 <= k -> 4 * k + 4 < 2 ^ 63 ->
  0 <= totalReads cs -> totalReads cs + 1 < 2 ^ 63 ->
  0 <= totalBases cs -> totalBases cs + len (TrimSpace c) < 2 ^ 63 ->
  0 <= gcCount cs <= totalBases cs -> 0 <= nCount cs <= totalBases cs ->
  fold_left scan_line [h; c; p; q] cs
  = {| lineIdx := 4 * (k + 1);
       totalReads := totalReads cs + 1;
       totalBases := totalBases cs + len (TrimSpace c);
       gcCount := gcCount cs + count_bytes isGC (TrimSpace c);
       nCount := nCount cs + count_bytes isN (TrimSpace c) |}.
Proof.
  intros Hi Hk Hmax Hr0 Hr Hb0 Hb Hg0 Hn0.
  pose proof (count_bytes_bounds isGC (TrimSpace c)) as Bg.
  pose proof (count_bytes_bounds isN (TrimSpace c)) as Bn.
  pose proof (len_nonneg (TrimSpace c)) as Bl.
  assert (R0 : Z.rem (4 * k) 4 <> 1)
    by (replace (4 * k) with (4 * k + 0) by lia; rewrite rem4; lia).
  assert (R1 : Z.rem (4 * k + 1) 4 = 1) by (apply rem4; lia).
  assert (R2 : Z.rem (4 * k + 2) 4 <> 1) by (rewrite rem4; lia).
  assert (R3 : Z.rem (4 * k + 3) 4 <> 1) by (rewrite rem4; lia).
  cbn [fold_left].
  rewrite (scan_line_other cs h) by now rewrite Hi.
  rewrite Hi, (wrap64_id (4 * k + 1)) by (unfold is_int64; lia).
  rewrite (scan_line_content _ c);
    cbn [lineIdx totalReads totalBases gcCount nCount];
    [ | assumption | unfold is_int64; lia | unfold is_int64; lia ].
  rewrite (wrap64_id (4 * k + 1 + 1)), (wrap64_id (totalReads cs + 1)),
    (wrap64_id (totalBases cs + _)), (wrap64_id (gcCount cs + _)),
    (wrap64_id (nCount cs + _)) by (unfold is_int64; lia).
  replace (4 * k + 1 + 1) with (4 * k + 2) by lia.
  rewrite (scan_line_other _ p) by assumption.
  cbn [lineIdx totalReads totalBases gcCount nCount].
  rewrite (wrap64_id (4 * k + 2 + 1)) by (unfold is_int64; lia).
  replace (4 * k + 2 + 1) with (4 * k + 3) by lia.
  rewrite (scan_line_other _ q) by assumption.
  cbn [lineIdx totalReads totalBases gcCount nCount].
  rewrite (wrap64_id (4 * k + 3 + 1)) by (unfold is_int64; lia).
  f_equal. lia.
Qed.




Lemma find_upsert_row (r : QCRow) (t : list QCRow) :
  find (fun x => String.eqb (qc_job_id x) (qc_job_id r)) (upsert_row r t) = Some r.
Proof.
  induction t as [|x t IH]; cbn [upsert_row find].
  - now rewrite String.eqb_refl.
  - destruct (String.eqb (qc_job_id x) (qc_job_id r)) eqn:E; cbn [find qc_job_id].
    + rewrite E. apply String.eqb_eq in E. destruct r; cbn in *. now subst.
    + now rewrite E.
Qed.

(** * C1 *)



(** The scenario of the specification: two records, ten bytes each, eight
    G/C and four N. *)
Example scenario_two_records :
  find_qc "job-1" (db (fst (processFASTQ ex_env "job-1" ex_path (start ex_queued_db))))
  = Some ex_row
  /\ qc_avg_read_length ex_row = 10%float
  /\ PrimFloat.eqb (qc_gc_content ex_row) (PrimFloat.div 2 5) = true
  /\ PrimFloat.eqb (qc_n_content ex_row) (PrimFloat.div 1 5) = true.
Proof. repeat split; vm_compute; reflexivity. Qed.

(** * C9 *)

Lemma isGC_spec (ch : ascii) :
  isGC ch = true <-> (ch = "G" \/ ch = "g" \/ ch = "C" \/ ch = "c")%char.
Proof. unfold isGC. rewrite !orb_true_iff, !Ascii.eqb_eq. tauto. Qed.

Lemma isN_spec (ch : ascii) :
  isN ch = true <-> (ch = "N" \/ ch = "n")%char.
Proof. unfold isN. rewrite !orb_true_iff, !Ascii.eqb_eq. tauto. Qed.

(** C9, as amended.  For a line at position 1 of its group the analyzer
    takes [seq = TrimSpace line]: the line with a run of white space cut off
    at the front as well as at the back, and nothing else removed.  It adds
    the length of [seq] to the total content length, the number of its bytes
    that are G, g, C or c to the GC count and the number that are N or n to
    the N count (the other bytes count for neither), and one to the record
    count, each modulo [2^64]. *)
Theorem C9_content_line_trimmed_both_sides (c : Counters) (line : string) :
  Z.rem (lineIdx c) 4 = 1 ->
  is_int64 (gcCount c) -> is_int64 (nCount c) ->
  (exists l r,
      list_ascii_of_string line
      = (l ++ list_ascii_of_string (TrimSpace line) ++ r)%list
      /\ white l /\ white r)
  /\ starts_with_space (list_ascii_of_string (TrimSpace line)) = false
  /\ ends_with_space (list_ascii_of_string (TrimSpace line)) = false
  /\ totalBases (scan_line c line) = wrap64 (totalBases c + len (TrimSpace line))
  /\ gcCount (scan_line c line)
     = wrap64 (gcCount c + count_bytes isGC (TrimSpace line))
  /\ nCount (scan_line c line)
     = wrap64 (nCount c + count_bytes isN (TrimSpace line))
  /\ totalReads (scan_line c line) = wrap64 (totalReads c + 1)
  /\ (forall ch, isGC ch = true <-> (ch = "G" \/ ch = "g" \/ ch = "C" \/ ch = "c")%char)
  /\ (forall ch, isN ch = true <-> (ch = "N" \/ ch = "n")%char).
Proof.
  intros Hpos Hg Hn.
  destruct (TrimSpace_split line) as (l & r & Hsplit & Hl & Hr & Hs & He).
  rewrite (scan_line_content c line Hpos Hg Hn).
  cbn [totalBases gcCount nCount totalReads].
  split; [exists l, r; auto|].
  repeat split; auto; try apply isGC_spec; try apply isN_spec.
Qed.

Lemma C9_witness :
  (exists l r,
      list_ascii_of_string ex_padded
      = (l ++ list_ascii_of_string (TrimSpace ex_padded) ++ r)%list
      /\ white l /\ white r)
  /\ starts_with_space (list_ascii_of_string (TrimSpace ex_padded)) = false
  /\ ends_with_space (list_ascii_of_string (TrimSpace ex_padded)) = false
  /\ totalBases (scan_line ex_counters ex_padded)
     = wrap64 (totalBases ex_counters + len (TrimSpace ex_padded))
  /\ gcCount (scan_line ex_counters ex_padded)
     = wrap64 (gcCount ex_counters + count_bytes isGC (TrimSpace ex_padded))
  /\ nCount (scan_line ex_counters ex_padded)
     = wrap64 (nCount ex_counters + count_bytes isN (TrimSpace ex_padded))
  /\ totalReads (scan_line ex_counters ex_padded) = wrap64 (totalReads ex_counters + 1)
  /\ (forall ch, isGC ch = true <-> (ch = "G" \/ ch = "g" \/ ch = "C" \/ ch = "c")%char)
  /\ (forall ch, isN ch = true <-> (ch = "N" \/ ch = "n")%char).
Proof.
  apply (C9_content_line_trimmed_both_sides ex_counters ex_padded).
  - reflexivity.
  - split; vm_compute; [discriminate | reflexivity].
  - split; vm_compute; [discriminate | reflexivity].
Defined.

(** The content line [" ACGT "] counts for four bytes: the leading space is
    stripped too, where stripping on the right only would leave five. *)
Lemma C9_counterexample :
  TrimSpace ex_padded = "ACGT"
  /\ strip_trailing ex_padded = " ACGT"
  /\ totalBases (scan_line ex_counters ex_padded) = 4
  /\ totalBases ex_counters + len (strip_trailing ex_padded) = 5.
Proof. repeat split; vm_compute; reflexivity. Qed.

(** ** Statements on the two tables *)

Lemma has_job_find (id : string) (d : DB) :
  has_job id d = true <-> exists j, find_job id d = Some j.
Proof.
  unfold has_job, find_job. induction (jobs d) as [|x t IH]; cbn [existsb find].
  - split; [discriminate | intros [j H]; discriminate].
  - destruct (String.eqb (j_id x) id); cbn [orb]; [|exact IH].
    split; eauto.
Qed.



Lemma update_jobs_ids (id : string) (set : JobRow -> JobRow) (t : list JobRow) :
  (forall j, j_id (set j) = j_id j) ->
  map j_id (update_jobs id set t) = map j_id t.
Proof.
  intros Hset. unfold update_jobs. rewrite map_map. apply map_ext.
  intros j. destruct (String.eqb (j_id j) id); auto.
Qed.

Lemma find_update_jobs (id id' : string) (set : JobRow -> JobRow) (t : list JobRow) :
  (forall j, j_id (set j) = j_id j) ->
  find (fun j => String.eqb (j_id j) id') (update_jobs id set t)
  = option_map (fun j => if String.eqb (j_id j) id then set j else j)
               (find (fun j => String.eqb (j_id j) id') t).
Proof.
  intros Hset. induction t as [|x t IH]; cbn [update_jobs map find option_map].
  - reflexivity.
  - fold (update_jobs id set t).
    assert (E : j_id (if String.eqb (j_id x) id then set x else x) = j_id x)
      by (destruct (String.eqb (j_id x) id); auto).
    rewrite E. destruct (String.eqb (j_id x) id'); [reflexivity | exact IH].
Qed.

(** An UPDATE rewrites the row of its job ... *)
Lemma find_job_updated (id : string) (set : JobRow -> JobRow) (d : DB) (q : list QCRow)
    (j : JobRow) :
  (forall j, j_id (set j) = j_id j) ->
  find_job id d = Some j ->
  find_job id {| jobs := update_jobs id set (jobs d); qc_results := q |} = Some (set j).
Proof.
  intros Hset Hj. unfold find_job in *. cbn [jobs].
  rewrite find_update_jobs, Hj by assumption. cbn [option_map].
  apply find_some in Hj. destruct Hj as [_ E]. now rewrite E.
Qed.

(** ... and leaves the rows of the other jobs. *)
Lemma find_job_not_updated (id id' : string) (set : JobRow -> JobRow) (d : DB)
    (q : list QCRow) :
  (forall j, j_id (set j) = j_id j) ->
  id' <> id ->
  find_job id' {| jobs := update_jobs id set (jobs d); qc_results := q |} = find_job id' d.
Proof.
  intros Hset Hne. unfold find_job. cbn [jobs].
  rewrite find_update_jobs by assumption.
  destruct (find (fun j => String.eqb (j_id j) id') (jobs d)) as [j|] eqn:Hj;
    cbn [option_map]; [|reflexivity].
  apply find_some in Hj. destruct Hj as [_ E]. apply String.eqb_eq in E.
  destruct (String.eqb_spec (j_id j) id); [congruence | reflexivity].
Qed.

Lemma has_job_update_jobs (id id' : string) (set : JobRow -> JobRow) (d : DB)
    (q : list QCRow) :
  (forall j, j_id (set j) = j_id j) ->
  has_job id' {| jobs := update_jobs id set (jobs d); qc_results := q |} = has_job id' d.
Proof.
  intros Hset. unfold has_job. cbn [jobs].
  induction (jobs d) as [|x t IH]; cbn [update_jobs map existsb]; [reflexivity|].
  fold (update_jobs id set t). rewrite IH. f_equal.
  destruct (String.eqb (j_id x) id); [now rewrite Hset | reflexivity].
Qed.

(** A statement that reports an error has changed nothing. *)
Lemma run_stmt_error (now : Z) (q : Stmt) (d : DB) (err : string) :
  snd (run_stmt now q d) = Some err -> fst (run_stmt now q d) = d.
Proof.
  destruct q as [id f|id s e| id |r]; cbn [run_stmt].
  - destruct (has_job id d); [reflexivity | discriminate].
  - destruct (has_job id d && negb (status_check s)); [reflexivity | discriminate].
  - discriminate.
  - destruct (has_job (qc_job_id r) d); [discriminate | reflexivity].
Qed.

Lemma Exec_error (fault : option string) (now : Z) (q : Stmt) (d : DB) (err : string) :
  snd (Exec fault now q d) = Some err -> fst (Exec fault now q d) = d.
Proof.
  unfold Exec. destruct fault; [reflexivity | apply run_stmt_error].
Qed.

(** No statement of the worker creates or removes a job. *)
Lemma Exec_has_job (fault : option string) (now : Z) (q : Stmt) (d : DB) (id : string) :
  (forall i f, q <> InsertJob i f) ->
  has_job id (fst (Exec fault now q d)) = has_job id d.
Proof.
  intros Hq. unfold Exec. destruct fault; [reflexivity|].
  destruct q as [i f|i s e|i|r]; cbn [run_stmt].
  - now destruct (Hq i f).
  - destruct (has_job i d && negb (status_check s)); [reflexivity|].
    now apply has_job_update_jobs.
  - now apply has_job_update_jobs.
  - destruct (has_job (qc_job_id r) d); reflexivity.
Qed.

(** ** The worker's primitives *)

Lemma db_Exec_db (fault : option string) (now : Z) (q : Stmt) (w : State) :
  db (fst (db_Exec fault now q w)) = fst (Exec fault now q (db w)).
Proof. reflexivity. Qed.

Lemma db_Exec_trace (fault : option string) (now : Z) (q : Stmt) (w : State) :
  trace (fst (db_Exec fault now q w))
  = (trace w ++ [EvExec q (snd (Exec fault now q (db w))) (fst (Exec fault now q (db w)))])%list.
Proof. reflexivity. Qed.

Lemma db_Exec_err (fault : option string) (now : Z) (q : Stmt) (w : State) :
  snd (db_Exec fault now q w) = snd (Exec fault now q (db w)).
Proof. reflexivity. Qed.

(** [processFASTQ] touches the database with its one statement, if at all. *)
Lemma processFASTQ_cases (e : Env) (jobID path : string) (w : State) :
  (exists err, processFASTQ e jobID path w = (w, Some err))
  \/ (exists lines,
        fs e path = Stream lines None
        /\ processFASTQ e jobID path w
           = db_Exec (fault_upsert e) (now e)
                     (UpsertQC (result_row jobID (scan lines) (analysis_ms e))) w).
Proof.
  unfold processFASTQ. destruct (fs e path) as [err|lines [err|]]; eauto.
Qed.

(** A failed [processFASTQ] has stored nothing. *)
Lemma processFASTQ_error_db (e : Env) (jobID path : string) (w : State) (err : string) :
  snd (processFASTQ e jobID path w) = Some err ->
  db (fst (processFASTQ e jobID path w)) = db w.
Proof.
  destruct (processFASTQ_cases e jobID path w) as [[err' E]|(lines & _ & E)];
    rewrite E; [reflexivity|].
  rewrite db_Exec_err, db_Exec_db. apply Exec_error.
Qed.

(** A successful one has stored the row of the job, and the job exists. *)
Lemma processFASTQ_ok_db (e : Env) (jobID path : string) (w : State) :
  snd (processFASTQ e jobID path w) = None ->
  has_job jobID (db w) = true
  /\ exists row,
       qc_job_id row = jobID
       /\ db (fst (processFASTQ e jobID path w))
          = {| jobs := jobs (db w); qc_results := upsert_row row (qc_results (db w)) |}
       /\ trace (fst (processFASTQ e jobID path w))
          = (trace w ++ [EvExec (UpsertQC row) None
                           {| jobs := jobs (db w);
                              qc_results := upsert_row row (qc_results (db w)) |}])%list.
Proof.
  destruct (processFASTQ_cases e jobID path w) as [[err' E]|(lines & _ & E)];
    rewrite E; [discriminate|].
  rewrite db_Exec_err, db_Exec_db, db_Exec_trace.
  unfold Exec. destruct (fault_upsert e); [discriminate|].
  cbn [run_stmt result_row qc_job_id].
  destruct (has_job jobID (db w)); [|discriminate].
  intros _. split; [reflexivity|]. eexists. split; [|split; reflexivity]. reflexivity.
Qed.

(** Whether [processFASTQ] fails, and with what, depends on the database
    only through the existence of the job. *)
Lemma processFASTQ_err_congr (e : Env) (jobID path : string) (w1 w2 : State) :
  has_job jobID (db w1) = has_job jobID (db w2) ->
  snd (processFASTQ e jobID path w1) = snd (processFASTQ e jobID path w2).
Proof.
  intros H. unfold processFASTQ.
  destruct (fs e path) as [err|lines [err|]]; try reflexivity.
  rewrite !db_Exec_err. unfold Exec. destruct (fault_upsert e); [reflexivity|].
  cbn [run_stmt result_row qc_job_id]. rewrite H.
  destruct (has_job jobID (db w2)); reflexivity.
Qed.

Lemma processFASTQ_acks (e : Env) (jobID path : string) (w : State) :
  acks (fst (processFASTQ e jobID path w)) = acks w.
Proof.
  destruct (processFASTQ_cases e jobID path w) as [[err' E]|(lines & _ & E)];
    rewrite E; [reflexivity|].
  unfold acks. rewrite db_Exec_trace, filter_app. cbn [filter]. apply app_nil_r.
Qed.

Lemma setStatus_has_job (fault : option string) (now : Z) (id s : string)
    (errMsg : option string) (w : State) (id' : string) :
  has_job id' (db (fst (setStatus fault now id s errMsg w))) = has_job id' (db w).
Proof.
  unfold setStatus. rewrite db_Exec_db. apply Exec_has_job. discriminate.
Qed.

Lemma with_status_id (s : string) (e : option string) (j : JobRow) :
  j_id (with_status j s e) = j_id j.
Proof. reflexivity. Qed.

Lemma with_done_id (now : Z) (j : JobRow) : j_id (with_done j now) = j_id j.
Proof. reflexivity. Qed.

(** [setStatus] on an existing job, when the statement goes through. *)
Lemma setStatus_find_job (now : Z) (id s : string) (errMsg : option string)
    (w : State) (j : JobRow) :
  find_job id (db w) = Some j -> status_check s = true ->
  find_job id (db (fst (setStatus None now id s errMsg w))) = Some (with_status j s errMsg)
  /\ snd (setStatus None now id s errMsg w) = None.
Proof.
  intros Hj Hs. unfold setStatus. rewrite db_Exec_db, db_Exec_err.
  unfold Exec. cbn [run_stmt]. rewrite Hs. rewrite andb_false_r. cbn [fst snd].
  split; [|reflexivity].
  apply (find_job_updated id (fun j => with_status j s errMsg) (db w));
    [intro; apply with_status_id | assumption].
Qed.

(** [setStatus] whatever the connection does: the row is rewritten or left. *)
Lemma setStatus_find_job_any (fault : option string) (now : Z) (id s : string)
    (errMsg : option string) (w : State) (j : JobRow) :
  find_job id (db w) = Some j -> status_check s = true ->
  find_job id (db (fst (setStatus fault now id s errMsg w))) = Some j
  \/ find_job id (db (fst (setStatus fault now id s errMsg w)))
     = Some (with_status j s errMsg).
Proof.
  intros Hj Hs. destruct fault as [x|].
  - left. exact Hj.
  - right. now apply setStatus_find_job.
Qed.

Lemma setDone_find_job (now : Z) (id : string) (w : State) (j : JobRow) :
  find_job id (db w) = Some j ->
  find_job id (db (fst (setDone None now id w))) = Some (with_done j now)
  /\ snd (setDone None now id w) = None.
Proof.
  intros Hj. unfold setDone. rewrite db_Exec_db, db_Exec_err.
  unfold Exec. cbn [run_stmt fst snd]. split; [|reflexivity].
  apply (find_job_updated id (fun j => with_done j now) (db w));
    [intro; apply with_done_id | assumption].
Qed.

(** * C2 *)

(** C2, as amended.  The transitions are not guarded by the state the job is
    in.  On an existing job, whatever its state, [setStatus(id, s, reason)]
    with one of the four states overwrites the state and the failure reason
    and leaves [completed_at]; [setDone(id)] overwrites the state and
    [completed_at] and leaves the failure reason.  Rows of other jobs are
    untouched. *)
Theorem C2_transitions_overwrite_any_state
    (now : Z) (id s : string) (reason : option string) (w : State) (j : JobRow) :
  find_job id (db w) = Some j ->
  status_check s = true ->
  (find_job id (db (fst (setStatus None now id s reason w)))
   = Some {| j_id := j_id j; j_filename := j_filename j;
             j_status := s; j_error := reason;
             j_submitted_at := j_submitted_at j;
             j_completed_at := j_completed_at j |})
  /\ (find_job id (db (fst (setDone None now id w)))
      = Some {| j_id := j_id j; j_filename := j_filename j;
                j_status := Done; j_error := j_error j;
                j_submitted_at := j_submitted_at j;
                j_completed_at := Some now |})
  /\ (forall id', id' <> id ->
        find_job id' (db (fst (setStatus None now id s reason w))) = find_job id' (db w)
        /\ find_job id' (db (fst (setDone None now id w))) = find_job id' (db w)).
Proof.
  intros Hj Hs. split; [|split].
  - apply (setStatus_find_job now id s reason w j Hj Hs).
  - apply (setDone_find_job now id w j Hj).
  - intros id' Hne. unfold setStatus, setDone. rewrite !db_Exec_db.
    unfold Exec. cbn [run_stmt]. rewrite Hs, andb_false_r. cbn [fst].
    split.
    + apply (find_job_not_updated id id' (fun j => with_status j s reason) (db w)); auto.
    + apply (find_job_not_updated id id' (fun j => with_done j now) (db w)); auto.
Qed.

Lemma C2_witness :
  (find_job "job-1" (db (fst (setStatus None 102 "job-1" Processing None (start ex_done_db))))
   = Some (ex_job Processing None (Some 101)))
  /\ (find_job "job-1" (db (fst (setDone None 102 "job-1" (start ex_done_db))))
      = Some (ex_job Done None (Some 102)))
  /\ (forall id', id' <> "job-1" ->
        find_job id' (db (fst (setStatus None 102 "job-1" Processing None (start ex_done_db))))
        = find_job id' (db (start ex_done_db))
        /\ find_job id' (db (fst (setDone None 102 "job-1" (start ex_done_db))))
           = find_job id' (db (start ex_done_db))).
Proof.
  apply (C2_transitions_overwrite_any_state 102 "job-1" Processing None
           (start ex_done_db) (ex_job Done None (Some 101))).
  - reflexivity.
  - reflexivity.
Defined.

(** A job that is Done is moved back to Processing by the transition a
    redelivered work item starts with, and ends Failed, its outcome
    overwritten, when that delivery fails. *)
Lemma C2_counterexample :
  find_job "job-1" ex_done_db = Some (ex_job Done None (Some 101))
  /\ terminal Done = true
  /\ find_job "job-1"
       (db (fst (setStatus None 102 "job-1" Processing None (start ex_done_db))))
     = Some (ex_job Processing None (Some 101))
  /\ find_job "job-1"
       (db (handleDelivery ex_Unmarshal ex_env "item-missing" (start ex_done_db)))
     = Some (ex_job Failed (Some "open: no such file or directory") (Some 101)).
Proof. repeat split; vm_compute; reflexivity. Qed.

(** ** One delivery *)

Ltac run_worker :=
  unfold setStatus, setDone, Ack, Nack, emit, jobFailures_Inc, jobsProcessed_Inc,
    jobDuration_Observe;
  cbn [db trace fst snd].

(** The delivery of a decodable work item starts with the transition to
    Processing, and none of the statements after it moves a job to
    Processing. *)
Lemma handleDelivery_starts (unm : string -> option QueueMessage) (e : Env)
    (body : string) (msg : QueueMessage) (w : State) :
  unm body = Some msg ->
  exists rest,
    trace (handleDelivery unm e body w)
    = (trace w
       ++ EvExec (UpdateStatus (JobID msg) Processing None)
                 (snd (Exec (fault_processing e) (now e)
                            (UpdateStatus (JobID msg) Processing None) (db w)))
                 (fst (Exec (fault_processing e) (now e)
                            (UpdateStatus (JobID msg) Processing None) (db w)))
       :: rest)%list
    /\ Forall processing_clears_reason rest.
Proof.
  intros Hunm. unfold handleDelivery. rewrite Hunm.
  remember (fst (setStatus (fault_processing e) (now e) (JobID msg) "processing" None w))
    as w1 eqn:Hw1.
  assert (T1 : trace w1
               = (trace w ++ [EvExec (UpdateStatus (JobID msg) Processing None)
                    (snd (Exec (fault_processing e) (now e)
                               (UpdateStatus (JobID msg) Processing None) (db w)))
                    (fst (Exec (fault_processing e) (now e)
                               (UpdateStatus (JobID msg) Processing None) (db w)))])%list)
    by (subst w1; reflexivity).
  clear Hw1.
  destruct (snd (processFASTQ e (JobID msg) (Path msg) w1)) as [err|] eqn:Herr.
  - destruct (processFASTQ_cases e (JobID msg) (Path msg) w1) as [[err' E]|(lines & _ & E)];
      rewrite E; run_worker; rewrite ?db_Exec_trace; cbn [trace];
      rewrite T1, <- ?app_assoc; cbn [app]; eexists;
      (split; [reflexivity|]); repeat constructor; intros H; discriminate H.
  - destruct (processFASTQ_ok_db e (JobID msg) (Path msg) w1 Herr) as (_ & row & _ & _ & T2).
    run_worker. rewrite db_Exec_trace. cbn [trace].
    rewrite T2, T1, <- !app_assoc. cbn [app]. eexists.
    split; [reflexivity|]. repeat constructor.
Qed.

(** * C10 *)

(** C10.  The coordinator's transition of a job to Processing is the UPDATE
    [status='processing', error=NULL]: it is the first effect of handling a
    decodable work item and the only statement of the delivery that moves a
    job to Processing.  When it goes through, the database state it leaves
    has the job in Processing with a null failure reason, whatever the state
    and the reason were (so a job that was Failed loses its reason as soon as
    a redelivered work item is taken up). *)
Theorem C10_processing_erases_failure_reason
    (unm : string -> option QueueMessage) (e : Env) (body : string)
    (msg : QueueMessage) (w : State) (j : JobRow) :
  unm body = Some msg ->
  fault_processing e = None ->
  find_job (JobID msg) (db w) = Some j ->
  exists d1 rest,
    trace (handleDelivery unm e body w)
    = (trace w ++ EvExec (UpdateStatus (JobID msg) Processing None) None d1 :: rest)%list
    /\ Forall processing_clears_reason rest
    /\ find_job (JobID msg) d1
       = Some {| j_id := j_id j; j_filename := j_filename j;
                 j_status := Processing; j_error := None;
                 j_submitted_at := j_submitted_at j;
                 j_completed_at := j_completed_at j |}.
Proof.
  intros Hunm Hfault Hj.
  destruct (handleDelivery_starts unm e body msg w Hunm) as (rest & T & Hrest).
  rewrite Hfault in T.
  destruct (setStatus_find_job (now e) (JobID msg) Processing None w j Hj eq_refl)
    as [Hfind Herr].
  unfold setStatus in Hfind, Herr. rewrite db_Exec_db in Hfind. rewrite db_Exec_err in Herr.
  rewrite Herr in T.
  eexists. exists rest. split; [exact T | split; [exact Hrest | exact Hfind]].
Qed.

Lemma C10_witness :
  exists d1 rest,
    trace (handleDelivery ex_Unmarshal ex_env "item" (start ex_failed_db))
    = (trace (start ex_failed_db)
       ++ EvExec (UpdateStatus (JobID ex_msg) Processing None) None d1 :: rest)%list
    /\ Forall processing_clears_reason rest
    /\ find_job (JobID ex_msg) d1 = Some (ex_job Processing None None).
Proof.
  apply (C10_processing_erases_failure_reason ex_Unmarshal ex_env "item" ex_msg
           (start ex_failed_db)
           (ex_job Failed (Some "open: no such file or directory") None)).
  - reflexivity.
  - reflexivity.
  - reflexivity.
Defined.

(** * C8 *)

(** C8.  When the analysis of a work item fails with error [err] (the job
    exists and the write of the outcome goes through), the job ends in state
    Failed with failure reason [err], the table of results is what it was, and
    the one acknowledgment of the delivery is a negative one without requeue. *)
Theorem C8_failed_analysis_marks_job_failed
    (unm : string -> option QueueMessage) (e : Env) (body : string)
    (msg : QueueMessage) (w : State) (j : JobRow) (err : string) :
  unm body = Some msg ->
  find_job (JobID msg) (db w) = Some j ->
  snd (processFASTQ e (JobID msg) (Path msg) w) = Some err ->
  fault_error e = None ->
  find_job (JobID msg) (db (handleDelivery unm e body w))
  = Some {| j_id := j_id j; j_filename := j_filename j;
            j_status := Failed; j_error := Some err;
            j_submitted_at := j_submitted_at j;
            j_completed_at := j_completed_at j |}
  /\ qc_results (db (handleDelivery unm e body w)) = qc_results (db w)
  /\ acks (handleDelivery unm e body w) = (acks w ++ [EvNack false false])%list.
Proof.
  intros Hunm Hj Herr Hfault. unfold handleDelivery. rewrite Hunm.
  set (w1 := fst (setStatus (fault_processing e) (now e) (JobID msg) "processing" None w)).
  assert (Herr1 : snd (processFASTQ e (JobID msg) (Path msg) w1) = Some err).
  { rewrite <- Herr. apply processFASTQ_err_congr. apply setStatus_has_job. }
  rewrite Herr1, Hfault.
  pose proof (processFASTQ_error_db e (JobID msg) (Path msg) w1 err Herr1) as Hdb.
  pose proof (processFASTQ_acks e (JobID msg) (Path msg) w1) as Hacks.
  set (w2 := fst (processFASTQ e (JobID msg) (Path msg) w1)) in *.
  assert (Hq1 : qc_results (db w1) = qc_results (db w)).
  { unfold w1, setStatus. rewrite db_Exec_db. unfold Exec.
    destruct (fault_processing e); [reflexivity|]. cbn [run_stmt].
    destruct (has_job (JobID msg) (db w) && negb (status_check "processing")); reflexivity. }
  assert (Hj1 : exists j1, find_job (JobID msg) (db w2) = Some j1
                           /\ with_status j1 Failed (Some err) = with_status j Failed (Some err)).
  { rewrite Hdb.
    destruct (setStatus_find_job_any (fault_processing e) (now e) (JobID msg)
                Processing None w j Hj eq_refl) as [H|H];
      fold w1 in H; eauto. }
  destruct Hj1 as (j1 & Hj1 & Ej1).
  split; [|split].
  - run_worker. rewrite db_Exec_db. unfold Exec. cbn [run_stmt andb negb status_check].
    rewrite andb_false_r. cbn [fst].
    change (Some {| j_id := j_id j; j_filename := j_filename j; j_status := Failed;
                    j_error := Some err; j_submitted_at := j_submitted_at j;
                    j_completed_at := j_completed_at j |})
      with (Some (with_status j Failed (Some err))).
    rewrite <- Ej1.
    apply (find_job_updated (JobID msg) (fun j => with_status j "error" (Some err)) (db w2));
      [intro; apply with_status_id | exact Hj1].
  - run_worker. rewrite db_Exec_db. unfold Exec. cbn [run_stmt].
    rewrite andb_false_r. cbn [fst qc_results]. now rewrite Hdb.
  - run_worker. unfold acks in *. rewrite db_Exec_trace. cbn [trace].
    rewrite !filter_app. cbn [filter]. rewrite Hacks.
    assert (A1 : filter (fun ev => match ev with EvExec _ _ _ => false | _ => true end)
                        (trace w1)
                 = filter (fun ev => match ev with EvExec _ _ _ => false | _ => true end)
                          (trace w)).
    { unfold w1, setStatus. rewrite db_Exec_trace, filter_app. cbn [filter]. apply app_nil_r. }
    rewrite A1. now rewrite app_nil_r.
Qed.

Lemma C8_witness :
  find_job (JobID ex_msg_missing)
    (db (handleDelivery ex_Unmarshal ex_env "item-missing" (start ex_queued_db)))
  = Some (ex_job Failed (Some "open: no such file or directory") None)
  /\ qc_results (db (handleDelivery ex_Unmarshal ex_env "item-missing" (start ex_queued_db)))
     = qc_results (db (start ex_queued_db))
  /\ acks (handleDelivery ex_Unmarshal ex_env "item-missing" (start ex_queued_db))
     = (acks (start ex_queued_db) ++ [EvNack false false])%list.
Proof.
  apply (C8_failed_analysis_marks_job_failed ex_Unmarshal ex_env "item-missing"
           ex_msg_missing (start ex_queued_db) (ex_job Queued None None)
           "open: no such file or directory").
  - reflexivity.
  - reflexivity.
  - reflexivity.
  - reflexivity.
Defined.

(** * C4 *)

(** C4, as amended.  For a work item that is analyzed successfully the
    coordinator's effects are, in this order: the transition to Processing,
    the upsert of the metrics (inside [processFASTQ]), the acknowledgment of
    the delivery, and then the transition to Done.  The acknowledgment comes
    after the upsert and before the Done transition, whether or not that
    transition then goes through. *)
Theorem C4_ack_after_upsert_before_done
    (unm : string -> option QueueMessage) (e : Env) (body : string)
    (msg : QueueMessage) (w : State) :
  unm body = Some msg ->
  snd (processFASTQ e (JobID msg) (Path msg) w) = None ->
  effects (handleDelivery unm e body w)
  = (effects w ++ [ EffStatus (JobID msg) Processing; EffUpsert (JobID msg);
                    EffAck; EffDone (JobID msg) ])%list
  /\ precedes (EffUpsert (JobID msg)) EffAck
       [ EffStatus (JobID msg) Processing; EffUpsert (JobID msg);
         EffAck; EffDone (JobID msg) ]
  /\ precedes EffAck (EffDone (JobID msg))
       [ EffStatus (JobID msg) Processing; EffUpsert (JobID msg);
         EffAck; EffDone (JobID msg) ].
Proof.
  intros Hunm Hok. split; [|split].
  - unfold effects, handleDelivery. rewrite Hunm.
    remember (fst (setStatus (fault_processing e) (now e) (JobID msg) "processing" None w))
      as w1 eqn:Hw1.
    assert (Hok1 : snd (processFASTQ e (JobID msg) (Path msg) w1) = None).
    { rewrite <- Hok. apply processFASTQ_err_congr. subst w1. apply setStatus_has_job. }
    assert (T1 : map effect_of (trace w1)
                 = (map effect_of (trace w) ++ [EffStatus (JobID msg) Processing])%list).
    { subst w1. unfold setStatus. rewrite db_Exec_trace, map_app. reflexivity. }
    clear Hw1. rewrite Hok1.
    destruct (processFASTQ_ok_db e (JobID msg) (Path msg) w1 Hok1)
      as (_ & row & Hrow & _ & T2).
    run_worker. rewrite db_Exec_trace. cbn [trace].
    rewrite T2, !map_app, T1, <- !app_assoc. cbn [map app effect_of].
    now rewrite Hrow.
  - exists [EffStatus (JobID msg) Processing], [], [EffDone (JobID msg)]. reflexivity.
  - exists [EffStatus (JobID msg) Processing; EffUpsert (JobID msg)], [], []. reflexivity.
Qed.

Lemma C4_witness :
  effects (handleDelivery ex_Unmarshal ex_env "item" (start ex_queued_db))
  = (effects (start ex_queued_db)
     ++ [ EffStatus (JobID ex_msg) Processing; EffUpsert (JobID ex_msg);
          EffAck; EffDone (JobID ex_msg) ])%list
  /\ precedes (EffUpsert (JobID ex_msg)) EffAck
       [ EffStatus (JobID ex_msg) Processing; EffUpsert (JobID ex_msg);
         EffAck; EffDone (JobID ex_msg) ]
  /\ precedes EffAck (EffDone (JobID ex_msg))
       [ EffStatus (JobID ex_msg) Processing; EffUpsert (JobID ex_msg);
         EffAck; EffDone (JobID ex_msg) ].
Proof.
  apply (C4_ack_after_upsert_before_done ex_Unmarshal ex_env "item" ex_msg
           (start ex_queued_db)).
  - reflexivity.
  - reflexivity.
Defined.

(** The acknowledgment is sent before the Done transition is written; when
    that write then fails, the work item is gone from the queue and the job
    is left in Processing. *)
Lemma C4_counterexample :
  effects (handleDelivery ex_Unmarshal ex_env "item" (start ex_queued_db))
  = [ EffStatus "job-1" Processing; EffUpsert "job-1"; EffAck; EffDone "job-1" ]
  /\ acks (handleDelivery ex_Unmarshal ex_env_done_fails "item" (start ex_queued_db))
     = [ EvAck false ]
  /\ find_job "job-1"
       (db (handleDelivery ex_Unmarshal ex_env_done_fails "item" (start ex_queued_db)))
     = Some (ex_job Processing None None).
Proof. repeat split; vm_compute; reflexivity. Qed.

(** ** Invariants of the database along the consume loop *)

Lemma snapshots_app (t1 t2 : list Event) :
  snapshots (t1 ++ t2) = (snapshots t1 ++ snapshots t2)%list.
Proof. unfold snapshots. apply flat_map_app. Qed.

Lemma holds_db_Exec (P : DB -> Prop) (fault : option string) (now : Z) (q : Stmt)
    (w : State) :
  holds_throughout P w ->
  P (fst (Exec fault now q (db w))) ->
  holds_throughout P (fst (db_Exec fault now q w)).
Proof.
  intros [Hd Ht] HP. split.
  - now rewrite db_Exec_db.
  - rewrite db_Exec_trace, snapshots_app. apply Forall_app. split; [assumption|].
    cbn. constructor; [assumption | constructor].
Qed.

Lemma holds_ack (P : DB -> Prop) (ev : Event) (w : State) :
  snapshots [ev] = [] ->
  holds_throughout P w -> holds_throughout P (emit ev w).
Proof.
  intros Hev [Hd Ht]. split; [assumption|].
  unfold emit. cbn [trace]. rewrite snapshots_app, Hev, app_nil_r. assumption.
Qed.

Lemma holds_counters (P : DB -> Prop) (w w' : State) :
  db w' = db w -> trace w' = trace w ->
  holds_throughout P w -> holds_throughout P w'.
Proof. unfold holds_throughout. intros -> ->. auto. Qed.

Lemma find_qc_upsert_row (r : QCRow) (d : DB) (id : string) :
  find_qc id d <> None ->
  find_qc id {| jobs := jobs d; qc_results := upsert_row r (qc_results d) |} <> None.
Proof.
  unfold find_qc. cbn [qc_results].
  induction (qc_results d) as [|x t IH]; cbn [upsert_row find]; [congruence|].
  destruct (String.eqb (qc_job_id x) id) eqn:Ex.
  - intros _. destruct (String.eqb (qc_job_id x) (qc_job_id r)); cbn [find qc_job_id];
      rewrite Ex; discriminate.
  - intros H. destruct (String.eqb (qc_job_id x) (qc_job_id r)) eqn:Er; cbn [find qc_job_id];
      rewrite Ex; auto.
Qed.

Lemma find_qc_upserted (r : QCRow) (d : DB) :
  find_qc (qc_job_id r) {| jobs := jobs d; qc_results := upsert_row r (qc_results d) |}
  = Some r.
Proof. unfold find_qc. cbn [qc_results]. apply find_upsert_row. Qed.

(** A property kept by the statements of the worker, each under what the
    loop guarantees when it runs, is kept by a delivery at every point. *)
Lemma handleDelivery_invariant (P : DB -> Prop) :
  (forall fault now id s reason d,
      s = Processing \/ s = Failed ->
      P d -> P (fst (Exec fault now (UpdateStatus id s reason) d))) ->
  (forall fault now r d, P d -> P (fst (Exec fault now (UpsertQC r) d))) ->
  (forall fault now id d,
      P d -> find_qc id d <> None -> P (fst (Exec fault now (UpdateDone id) d))) ->
  forall unm e body w,
    holds_throughout P w -> holds_throughout P (handleDelivery unm e body w).
Proof.
  intros Hstatus Hupsert Hdone unm e body w Hw.
  unfold handleDelivery. destruct (unm body) as [msg|].
  2:{ apply (holds_counters P (Nack false false w)); try reflexivity.
      now apply holds_ack. }
  remember (fst (setStatus (fault_processing e) (now e) (JobID msg) "processing" None w))
    as w1 eqn:Hw1.
  assert (H1 : holds_throughout P w1).
  { subst w1. apply holds_db_Exec; [assumption|]. apply Hstatus; [now left | apply Hw]. }
  clear Hw1.
  destruct (snd (processFASTQ e (JobID msg) (Path msg) w1)) as [err|] eqn:Herr.
  - assert (H2 : holds_throughout P (fst (processFASTQ e (JobID msg) (Path msg) w1))).
    { destruct (processFASTQ_cases e (JobID msg) (Path msg) w1)
        as [[err' E]|(lines & _ & E)]; rewrite E; [exact H1|].
      apply holds_db_Exec; [assumption|]. apply Hupsert, H1. }
    eapply holds_counters; [reflexivity | reflexivity |].
    apply holds_db_Exec.
    + apply holds_ack; [reflexivity | exact H2].
    + apply Hstatus; [now right|]. apply H2.
  - destruct (processFASTQ_ok_db e (JobID msg) (Path msg) w1 Herr)
      as (_ & row & Hrow & Hdb & T2).
    assert (H2 : holds_throughout P (fst (processFASTQ e (JobID msg) (Path msg) w1))).
    { destruct (processFASTQ_cases e (JobID msg) (Path msg) w1)
        as [[err' E]|(lines & _ & E)]; rewrite E; [exact H1|].
      apply holds_db_Exec; [assumption|]. apply Hupsert, H1. }
    apply holds_db_Exec.
    + eapply holds_counters; [reflexivity | reflexivity |].
      eapply holds_counters; [reflexivity | reflexivity |].
      apply holds_ack; [reflexivity | exact H2].
    + apply Hdone; [apply H2|]. cbn [db jobDuration_Observe jobsProcessed_Inc Ack emit].
      rewrite Hdb, <- Hrow. rewrite find_qc_upserted. discriminate.
Qed.

Lemma consume_invariant (P : DB -> Prop) (unm : string -> option QueueMessage) :
  (forall e body w, holds_throughout P w -> holds_throughout P (handleDelivery unm e body w)) ->
  forall ds w, holds_throughout P w -> holds_throughout P (consume unm ds w).
Proof.
  intros Hstep ds. unfold consume.
  induction ds as [|[e body] ds IH]; intros w Hw; cbn [fold_left fst snd]; auto.
Qed.

Lemma In_update_jobs (id : string) (set : JobRow -> JobRow) (t : list JobRow) (j' : JobRow) :
  In j' (update_jobs id set t) ->
  In j' t \/ exists j, In j t /\ j_id j = id /\ j' = set j.
Proof.
  unfold update_jobs. rewrite in_map_iff. intros (j & E & Hin).
  destruct (String.eqb_spec (j_id j) id); subst; eauto.
Qed.

Lemma Failed_not_Done : Failed <> Done.
Proof. discriminate. Qed.

Lemma Processing_not_Done : Processing <> Done.
Proof. discriminate. Qed.

(** The jobs after a statement of the worker: old rows, rows set to the
    status of a [setStatus], or rows set to Done by [setDone]. *)
Lemma Exec_jobs (fault : option string) (now : Z) (q : Stmt) (d : DB) (j' : JobRow) :
  In j' (jobs (fst (Exec fault now q d))) ->
  In j' (jobs d)
  \/ (exists id f, q = InsertJob id f /\ j' = new_job id f now)
  \/ (exists id s reason j, q = UpdateStatus id s reason /\ In j (jobs d)
                            /\ j' = with_status j s reason)
  \/ (exists id j, q = UpdateDone id /\ In j (jobs d) /\ j_id j = id
                   /\ j' = with_done j now).
Proof.
  unfold Exec. destruct fault; [auto|].
  destruct q as [id f|id s reason|id|r]; cbn [run_stmt].
  - destruct (has_job id d); cbn [fst jobs]; [auto|].
    rewrite in_app_iff. cbn [In]. intros [H|[H|[]]]; [auto|].
    right. left. eauto.
  - destruct (has_job id d && negb (status_check s)); cbn [fst jobs]; [auto|].
    intros H. apply In_update_jobs in H. destruct H as [H|(j & Hin & _ & E)]; [auto|].
    right. right. left. exists id, s, reason, j. auto.
  - cbn [fst jobs]. intros H. apply In_update_jobs in H.
    destruct H as [H|(j & Hin & Hid & E)]; [auto|].
    right. right. right. exists id, j. auto.
  - destruct (has_job (qc_job_id r) d); cbn [fst jobs]; auto.
Qed.

(** No statement of the worker removes a result. *)
Lemma Exec_find_qc (fault : option string) (now : Z) (q : Stmt) (d : DB) (id : string) :
  find_qc id d <> None -> find_qc id (fst (Exec fault now q d)) <> None.
Proof.
  unfold Exec. destruct fault; [auto|].
  destruct q as [i f|i s reason|i|r]; cbn [run_stmt].
  - destruct (has_job i d); auto.
  - destruct (has_job i d && negb (status_check s)); auto.
  - auto.
  - destruct (has_job (qc_job_id r) d); cbn [fst]; [|auto].
    apply find_qc_upsert_row.
Qed.

Lemma done_has_result_status (fault : option string) (now : Z) (id s : string)
    (reason : option string) (d : DB) :
  s <> Done ->
  done_has_result d -> done_has_result (fst (Exec fault now (UpdateStatus id s reason) d)).
Proof.
  intros Hs Hd j' Hin Hdone.
  apply Exec_jobs in Hin.
  destruct Hin as [Hin|[(i & f & E & _)|[(i & s' & r' & j & E & Hin & ->)|(i & j & E & _)]]];
    try discriminate.
  - apply Exec_find_qc. now apply Hd.
  - injection E as <- <- <-. cbn in Hdone. congruence.
Qed.

Lemma done_has_result_upsert (fault : option string) (now : Z) (r : QCRow) (d : DB) :
  done_has_result d -> done_has_result (fst (Exec fault now (UpsertQC r) d)).
Proof.
  intros Hd j' Hin Hdone.
  apply Exec_jobs in Hin.
  destruct Hin as [Hin|[(i & f & E & _)|[(i & s' & r' & j & E & _)|(i & j & E & _)]]];
    try discriminate.
  apply Exec_find_qc. now apply Hd.
Qed.

Lemma done_has_result_done (fault : option string) (now : Z) (id : string) (d : DB) :
  done_has_result d -> find_qc id d <> None ->
  done_has_result (fst (Exec fault now (UpdateDone id) d)).
Proof.
  intros Hd Hq j' Hin Hdone.
  apply Exec_jobs in Hin.
  destruct Hin as [Hin|[(i & f & E & _)|[(i & s' & r' & j & E & _)|(i & j & E & Hin & Hid & ->)]]];
    try discriminate.
  - apply Exec_find_qc. now apply Hd.
  - injection E as <-. apply Exec_find_qc. cbn [with_done j_id]. now rewrite Hid.
Qed.

Lemma done_has_result_insert (fault : option string) (now : Z) (id f : string) (d : DB) :
  done_has_result d -> done_has_result (fst (Exec fault now (InsertJob id f) d)).
Proof.
  intros Hd j' Hin Hdone.
  apply Exec_jobs in Hin.
  destruct Hin as [Hin|[(i & f' & E & ->)|[(i & s' & r' & j & E & _)|(i & j & E & _)]]];
    try discriminate.
  apply Exec_find_qc. now apply Hd.
Qed.

(** A submission keeps it too: the row it creates is Queued. *)
Lemma handleSubmit_done_has_result
    (Base : string -> string) (Join : string -> string -> string)
    (Marshal : QueueMessage -> string)
    (e : Ingress.Env) (r : Ingress.Request) (s : Ingress.State) :
  done_has_result (Ingress.db s) ->
  done_has_result (Ingress.db (fst (Ingress.handleSubmit Base Join Marshal e r s))).
Proof.
  intros Hs. unfold Ingress.handleSubmit.
  destruct r as [| |name content]; try exact Hs.
  destruct (Ingress.mkdir_err e); [exact Hs|].
  destruct (Ingress.create_err e); [exact Hs|].
  destruct (Ingress.write_err e); [exact Hs|].
  pose proof (done_has_result_insert (Ingress.fault_insert e) (Ingress.now e)
                (Ingress.new_uuid e) (Base name) (Ingress.db s) Hs) as H.
  destruct (snd (Exec (Ingress.fault_insert e) (Ingress.now e)
                      (InsertJob (Ingress.new_uuid e) (Base name)) (Ingress.db s)));
    [exact H|].
  destruct (Ingress.publish_err e); exact H.
Qed.

(** * C3 *)

(** C3, as amended.  At every point of the consume loop (after each of its
    statements) a job in state Done has a Metrics Result row; the converse
    does not hold.  [handleGetJob] returns, alongside a job it finds, the
    result row of that id whenever there is one, whatever the job's state. *)
Theorem C3_done_has_result_and_query_ignores_state
    (unm : string -> option QueueMessage) (ds : list (Env * string)) (w : State)
    (id : string) :
  holds_throughout done_has_result w ->
  holds_throughout done_has_result (consume unm ds w)
  /\ Results.handleGetJob false false (db (consume unm ds w)) id
     = match find_job id (db (consume unm ds w)) with
       | None => Results.NotFound
       | Some j => Results.OK {| Results.Job := j;
                                 Results.QC := find_qc id (db (consume unm ds w)) |}
       end.
Proof.
  intros Hw. split; [|reflexivity].
  apply consume_invariant; [|assumption].
  intros e body w0. apply handleDelivery_invariant.
  - intros fault now i s reason d [->| ->] Hd;
      apply done_has_result_status; auto using Failed_not_Done, Processing_not_Done.
  - intros. now apply done_has_result_upsert.
  - intros. now apply done_has_result_done.
Qed.

Lemma C3_witness :
  holds_throughout done_has_result
    (consume ex_Unmarshal [(ex_env, "item"); (ex_env, "item-missing")] (start ex_queued_db))
  /\ Results.handleGetJob false false
       (db (consume ex_Unmarshal [(ex_env, "item"); (ex_env, "item-missing")]
                    (start ex_queued_db))) "job-1"
     = match find_job "job-1"
               (db (consume ex_Unmarshal [(ex_env, "item"); (ex_env, "item-missing")]
                            (start ex_queued_db))) with
       | None => Results.NotFound
       | Some j =>
           Results.OK {| Results.Job := j;
                         Results.QC := find_qc "job-1"
                           (db (consume ex_Unmarshal
                                   [(ex_env, "item"); (ex_env, "item-missing")]
                                   (start ex_queued_db))) |}
       end.
Proof.
  apply (C3_done_has_result_and_query_ignores_state ex_Unmarshal
           [(ex_env, "item"); (ex_env, "item-missing")] (start ex_queued_db) "job-1").
  split.
  - intros j [<-|[]] H. discriminate H.
  - constructor.
Defined.

(** While a work item is handled the result row is there and the job is
    still Processing, and the query returns both; it stays so when the Done
    transition fails; and a job whose later delivery fails is Failed with a
    result. *)
Lemma C3_counterexample :
  nth_error (snapshots (trace (handleDelivery ex_Unmarshal ex_env "item"
                                 (start ex_queued_db)))) 1
  = Some ex_processing_with_row_db
  /\ Results.handleGetJob false false ex_processing_with_row_db "job-1"
     = Results.OK {| Results.Job := ex_job Processing None None;
                     Results.QC := Some ex_row |}
  /\ ~ result_iff_done ex_processing_with_row_db "job-1"
  /\ db (handleDelivery ex_Unmarshal ex_env_done_fails "item" (start ex_queued_db))
     = ex_processing_with_row_db
  /\ Results.handleGetJob false false
       (db (handleDelivery ex_Unmarshal ex_env "item-missing" (start ex_done_db))) "job-1"
     = Results.OK {| Results.Job := ex_job Failed (Some "open: no such file or directory")
                                           (Some 101);
                     Results.QC := Some ex_row |}.
Proof.
  split; [vm_compute; reflexivity|].
  split; [vm_compute; reflexivity|].
  split.
  - intros H. specialize (H (ex_job Processing None None) eq_refl).
    destruct H as [H _]. assert (E : Processing = Done) by (apply H; discriminate).
    discriminate E.
  - split; vm_compute; reflexivity.
Qed.

(** * C5 *)

Lemma done_has_completed_Exec (fault : option string) (now : Z) (q : Stmt) (d : DB) :
  (forall id reason, q <> UpdateStatus id Done reason) ->
  done_has_completed d -> done_has_completed (fst (Exec fault now q d)).
Proof.
  intros Hq Hd j' Hin Hdone.
  apply Exec_jobs in Hin.
  destruct Hin as [Hin|[(i & f & E & ->)|[(i & s & r & j & E & Hin & ->)|(i & j & E & _ & _ & ->)]]].
  - now apply Hd.
  - discriminate Hdone.
  - cbn in Hdone. subst s. now destruct (Hq i r).
  - discriminate.
Qed.

Lemma update_jobs_completed_at (id : string) (set : JobRow -> JobRow) (t : list JobRow) :
  (forall j, j_completed_at (set j) = j_completed_at j) ->
  map j_completed_at (update_jobs id set t) = map j_completed_at t.
Proof.
  intros Hset. unfold update_jobs. rewrite map_map. apply map_ext.
  intros j. destruct (String.eqb (j_id j) id); auto.
Qed.

(** C5, as amended.  [completed_at] is written by the transition to Done and
    by nothing else.  At every point of the consume loop a job in state Done
    has a non-null [completed_at]; [setDone] sets it to the current time on
    each call; [setStatus] (the transitions to Processing and to Failed)
    leaves the [completed_at] of every row as it was, the upsert of a result
    leaves the jobs as they were, and a row is created with [completed_at]
    null.  (So a job that fails without having been Done is Failed with a
    null [completed_at].) *)
Theorem C5_completed_at_written_by_setDone_only
    (unm : string -> option QueueMessage) (ds : list (Env * string)) (w : State) :
  holds_throughout done_has_completed w ->
  holds_throughout done_has_completed (consume unm ds w)
  /\ (forall now id w0 j,
        find_job id (db w0) = Some j ->
        find_job id (db (fst (setDone None now id w0)))
        = Some {| j_id := j_id j; j_filename := j_filename j;
                  j_status := Done; j_error := j_error j;
                  j_submitted_at := j_submitted_at j;
                  j_completed_at := Some now |})
  /\ (forall fault now id s reason w0,
        map j_completed_at (jobs (db (fst (setStatus fault now id s reason w0))))
        = map j_completed_at (jobs (db w0)))
  /\ (forall fault now r d, jobs (fst (Exec fault now (UpsertQC r) d)) = jobs d)
  /\ (forall id filename now, j_completed_at (new_job id filename now) = None).
Proof.
  intros Hw. split; [|split; [|split; [|split]]].
  - apply consume_invariant; [|assumption].
    intros e body w0. apply handleDelivery_invariant.
    + intros fault now i s reason d Hs Hd. apply done_has_completed_Exec; [|assumption].
      intros i' r' E. injection E as _ E _. destruct Hs; subst s; discriminate.
    + intros. apply done_has_completed_Exec; [discriminate | assumption].
    + intros. apply done_has_completed_Exec; [discriminate | assumption].
  - intros now id w0 j Hj. apply (setDone_find_job now id w0 j Hj).
  - intros fault now id s reason w0. unfold setStatus. rewrite db_Exec_db.
    unfold Exec. destruct fault; [reflexivity|]. cbn [run_stmt].
    destruct (has_job id (db w0) && negb (status_check s)); [reflexivity|].
    cbn [fst jobs]. now apply update_jobs_completed_at.
  - intros fault now r d. unfold Exec. destruct fault; [reflexivity|]. cbn [run_stmt].
    destruct (has_job (qc_job_id r) d); reflexivity.
  - reflexivity.
Qed.

Lemma C5_witness :
  holds_throughout done_has_completed
    (consume ex_Unmarshal [(ex_env, "item-missing"); (ex_env, "item")] (start ex_queued_db))
  /\ (forall now id w0 j,
        find_job id (db w0) = Some j ->
        find_job id (db (fst (setDone None now id w0)))
        = Some {| j_id := j_id j; j_filename := j_filename j;
                  j_status := Done; j_error := j_error j;
                  j_submitted_at := j_submitted_at j;
                  j_completed_at := Some now |})
  /\ (forall fault now id s reason w0,
        map j_completed_at (jobs (db (fst (setStatus fault now id s reason w0))))
        = map j_completed_at (jobs (db w0)))
  /\ (forall fault now r d, jobs (fst (Exec fault now (UpsertQC r) d)) = jobs d)
  /\ (forall id filename now, j_completed_at (new_job id filename now) = None).
Proof.
  apply (C5_completed_at_written_by_setDone_only ex_Unmarshal
           [(ex_env, "item-missing"); (ex_env, "item")] (start ex_queued_db)).
  split.
  - intros j [<-|[]] H. discriminate H.
  - constructor.
Defined.

(** A job whose first delivery fails is Failed, a terminal state, and its
    [completed_at] is null; a Done job that is taken up again is Processing
    with [completed_at] set. *)
Lemma C5_counterexample :
  find_job "job-1"
    (db (handleDelivery ex_Unmarshal ex_env "item-missing" (start ex_queued_db)))
  = Some (ex_job Failed (Some "open: no such file or directory") None)
  /\ ~ completed_iff_terminal (ex_job Failed (Some "open: no such file or directory") None)
  /\ find_job "job-1"
       (db (fst (setStatus None 102 "job-1" Processing None (start ex_done_db))))
     = Some (ex_job Processing None (Some 101))
  /\ ~ completed_iff_terminal (ex_job Processing None (Some 101)).
Proof.
  split; [vm_compute; reflexivity|]. split; [|split; [vm_compute; reflexivity|]].
  - intros [H _]. destruct (H eq_refl) as [E|E]; discriminate E.
  - intros [_ H]. assert (E : Some 101 = None) by (apply H; now right). discriminate E.
Qed.

(** * C6 *)

Lemma upsert_row_keys (r : QCRow) (t : list QCRow) :
  map qc_job_id (upsert_row r t)
  = if existsb (fun x => String.eqb (qc_job_id x) (qc_job_id r)) t
    then map qc_job_id t
    else (map qc_job_id t ++ [qc_job_id r])%list.
Proof.
  induction t as [|x t IH]; cbn [upsert_row existsb map app]; [reflexivity|].
  destruct (String.eqb (qc_job_id x) (qc_job_id r)); cbn [orb map qc_job_id];
    [reflexivity|].
  rewrite IH. now destruct (existsb _ t).
Qed.

Lemma existsb_key_In (k : string) (t : list QCRow) :
  existsb (fun x => String.eqb (qc_job_id x) k) t = false -> ~ In k (map qc_job_id t).
Proof.
  induction t as [|x t IH]; cbn [existsb map In]; [tauto|].
  destruct (String.eqb_spec (qc_job_id x) k); cbn [orb]; [discriminate|].
  intros H [E|Hin]; [contradiction | now apply IH].
Qed.

(** The upsert keeps the key of [qc_results] unique. *)
Lemma upsert_row_NoDup (r : QCRow) (t : list QCRow) :
  NoDup (map qc_job_id t) -> NoDup (map qc_job_id (upsert_row r t)).
Proof.
  intros H. rewrite upsert_row_keys.
  destruct (existsb _ t) eqn:E; [assumption|].
  apply NoDup_app; [assumption | repeat constructor; intros [] | ].
  intros k Hin [Ek|[]]. subst k. now apply (existsb_key_In _ t E).
Qed.

Lemma filter_key_absent (k : string) (t : list QCRow) :
  ~ In k (map qc_job_id t) -> filter (fun x => String.eqb (qc_job_id x) k) t = [].
Proof.
  induction t as [|x t IH]; cbn [map In filter]; [reflexivity|].
  intros H. destruct (String.eqb_spec (qc_job_id x) k); [tauto|]. apply IH. tauto.
Qed.

(** After an upsert the rows of the key are the one row upserted. *)
Lemma filter_upsert_row (r : QCRow) (t : list QCRow) :
  NoDup (map qc_job_id t) ->
  filter (fun x => String.eqb (qc_job_id x) (qc_job_id r)) (upsert_row r t) = [r].
Proof.
  induction t as [|x t IH]; cbn [upsert_row filter map]; intros Hnd.
  - now rewrite String.eqb_refl.
  - inversion Hnd as [|k ks Hk Hnd']; subst.
    destruct (String.eqb (qc_job_id x) (qc_job_id r)) eqn:E; cbn [filter qc_job_id].
    + rewrite E. apply String.eqb_eq in E.
      rewrite filter_key_absent by (rewrite <- E; assumption).
      destruct r; cbn in *. now subst.
    + rewrite E. now apply IH.
Qed.

(** Every statement keeps the primary keys of the two tables unique. *)
Lemma Exec_keys_unique (fault : option string) (now : Z) (q : Stmt) (d : DB) :
  keys_unique d -> keys_unique (fst (Exec fault now q d)).
Proof.
  intros [Hj Hq]. unfold Exec. destruct fault; [now split|].
  destruct q as [id f|id s reason|id|r]; cbn [run_stmt].
  - destruct (has_job id d) eqn:E; [now split|]. split; [|assumption].
    cbn [fst jobs]. rewrite map_app. cbn [map new_job j_id].
    apply NoDup_app; [assumption | repeat constructor; intros [] |].
    intros k Hin [Ek|[]]. subst k.
    apply in_map_iff in Hin. destruct Hin as (j & Ej & Hin).
    assert (has_job id d = true); [|congruence].
    unfold has_job. apply existsb_exists. exists j. split; [assumption|].
    now apply String.eqb_eq.
  - destruct (has_job id d && negb (status_check s)); [now split|]. split; [|assumption].
    cbn [fst jobs]. rewrite update_jobs_ids; [assumption | reflexivity].
  - split; [|assumption]. cbn [fst jobs].
    rewrite update_jobs_ids; [assumption | reflexivity].
  - destruct (has_job (qc_job_id r) d); [|now split]. split; [assumption|].
    cbn [fst qc_results]. now apply upsert_row_NoDup.
Qed.

(** A second upsert under the same key makes the first one invisible. *)
Lemma upsert_row_twice (r1 r2 : QCRow) (t : list QCRow) :
  qc_job_id r1 = qc_job_id r2 ->
  upsert_row r2 (upsert_row r1 t) = upsert_row r2 t.
Proof.
  intros Hk. induction t as [|x t IH]; cbn [upsert_row].
  - rewrite Hk, String.eqb_refl. destruct r2; cbn in *. now subst.
  - rewrite Hk. destruct (String.eqb (qc_job_id x) (qc_job_id r2)) eqn:E;
      cbn [upsert_row qc_job_id]; rewrite E; [reflexivity | now rewrite IH].
Qed.

(** C6.  Upserting [v1] and then [v2] under one job id (the job exists, so
    both statements go through) leaves exactly one row of that id in
    [qc_results], the row [v2]; the database is the one that the second upsert
    alone would have left; and the key stays unique. *)
Theorem C6_upsert_twice_keeps_second
    (now1 now2 : Z) (d : DB) (v1 v2 : QCRow) :
  qc_job_id v1 = qc_job_id v2 ->
  has_job (qc_job_id v1) d = true ->
  NoDup (map qc_job_id (qc_results d)) ->
  qc_rows_of (qc_job_id v2)
    (fst (Exec None now2 (UpsertQC v2) (fst (Exec None now1 (UpsertQC v1) d)))) = [v2]
  /\ fst (Exec None now2 (UpsertQC v2) (fst (Exec None now1 (UpsertQC v1) d)))
     = fst (Exec None now2 (UpsertQC v2) d)
  /\ snd (Exec None now2 (UpsertQC v2) (fst (Exec None now1 (UpsertQC v1) d))) = None
  /\ NoDup (map qc_job_id
              (qc_results (fst (Exec None now2 (UpsertQC v2)
                                     (fst (Exec None now1 (UpsertQC v1) d)))))).
Proof.
  intros Hk Hjob Hnd.
  assert (Hjob2 : has_job (qc_job_id v2) d = true) by now rewrite <- Hk.
  unfold Exec. cbn [run_stmt]. rewrite Hjob. cbn [fst].
  assert (Hjob1 : has_job (qc_job_id v2)
                    {| jobs := jobs d; qc_results := upsert_row v1 (qc_results d) |}
                  = true) by exact Hjob2.
  rewrite Hjob1, Hjob2. cbn [fst snd qc_results jobs].
  rewrite (upsert_row_twice v1 v2 _ Hk).
  repeat split.
  - unfold qc_rows_of. cbn [qc_results]. now apply filter_upsert_row.
  - now apply upsert_row_NoDup.
Qed.

Lemma C6_witness :
  qc_rows_of (qc_job_id ex_row')
    (fst (Exec None 102 (UpsertQC ex_row')
               (fst (Exec None 101 (UpsertQC ex_row) ex_queued_db)))) = [ex_row']
  /\ fst (Exec None 102 (UpsertQC ex_row')
               (fst (Exec None 101 (UpsertQC ex_row) ex_queued_db)))
     = fst (Exec None 102 (UpsertQC ex_row') ex_queued_db)
  /\ snd (Exec None 102 (UpsertQC ex_row')
               (fst (Exec None 101 (UpsertQC ex_row) ex_queued_db))) = None
  /\ NoDup (map qc_job_id
              (qc_results (fst (Exec None 102 (UpsertQC ex_row')
                                     (fst (Exec None 101 (UpsertQC ex_row) ex_queued_db)))))).
Proof.
  apply (C6_upsert_twice_keeps_second 101 102 ex_queued_db ex_row ex_row').
  - reflexivity.
  - reflexivity.
  - constructor.
Defined.

(** * C7 *)

Lemma file_content_written (path content : string) (fs : list (string * string)) :
  file_content path (Ingress.write_file path content fs) = Some content.
Proof.
  unfold file_content, Ingress.write_file. cbn [find fst].
  now rewrite String.eqb_refl.
Qed.

Lemma find_job_inserted (id filename : string) (now : Z) (d : DB) :
  has_job id d = false ->
  find_job id {| jobs := jobs d ++ [new_job id filename now]; qc_results := qc_results d |}
  = Some (new_job id filename now).
Proof.
  unfold has_job, find_job. cbn [jobs].
  induction (jobs d) as [|x t IH]; cbn [existsb app find].
  - intros _. cbn [new_job j_id]. now rewrite String.eqb_refl.
  - destruct (String.eqb (j_id x) id); cbn [orb]; [discriminate | exact IH].
Qed.

(** C7, as amended.  [handleSubmit] stores the input, then inserts the job
    row in state Queued, then publishes one work item that names the job and
    the stored location, and answers 200.  It does these in order and undoes
    nothing: when the publish fails the answer is 500, no work item is on the
    queue, and the stored file and the Queued job row stay; when the INSERT
    fails the answer is 500, nothing is published, the jobs are unchanged and
    the stored file stays.  (The storage steps succeed and the job id is
    fresh.) *)
Theorem C7_submit_in_order_without_rollback
    (Base : string -> string) (Join : string -> string -> string)
    (Marshal : QueueMessage -> string)
    (e : Ingress.Env) (name content : string) (s : Ingress.State) :
  Ingress.mkdir_err e = false ->
  Ingress.create_err e = false ->
  Ingress.write_err e = None ->
  has_job (Ingress.new_uuid e) (Ingress.db s) = false ->
  file_content
    (Join (Ingress.uploadDir e) (Ingress.new_uuid e ++ "_" ++ Base name))
    (Ingress.files (fst (Ingress.handleSubmit Base Join Marshal e
                           (Ingress.Upload name content) s)))
  = Some content
  /\ (Ingress.fault_insert e = None -> Ingress.publish_err e = false ->
      Ingress.code (snd (Ingress.handleSubmit Base Join Marshal e
                           (Ingress.Upload name content) s)) = 200
      /\ jobs (Ingress.db (fst (Ingress.handleSubmit Base Join Marshal e
                                  (Ingress.Upload name content) s)))
         = (jobs (Ingress.db s)
            ++ [new_job (Ingress.new_uuid e) (Base name) (Ingress.now e)])%list
      /\ Ingress.queue (fst (Ingress.handleSubmit Base Join Marshal e
                               (Ingress.Upload name content) s))
         = (Ingress.queue s
            ++ [Marshal {| JobID := Ingress.new_uuid e;
                           Path := Join (Ingress.uploadDir e)
                                        (Ingress.new_uuid e ++ "_" ++ Base name)%string;
                           Compression := "none" |}])%list)
  /\ (Ingress.fault_insert e = None -> Ingress.publish_err e = true ->
      Ingress.code (snd (Ingress.handleSubmit Base Join Marshal e
                           (Ingress.Upload name content) s)) = 500
      /\ find_job (Ingress.new_uuid e)
           (Ingress.db (fst (Ingress.handleSubmit Base Join Marshal e
                               (Ingress.Upload name content) s)))
         = Some (new_job (Ingress.new_uuid e) (Base name) (Ingress.now e))
      /\ Ingress.queue (fst (Ingress.handleSubmit Base Join Marshal e
                               (Ingress.Upload name content) s))
         = Ingress.queue s)
  /\ (Ingress.fault_insert e <> None ->
      Ingress.code (snd (Ingress.handleSubmit Base Join Marshal e
                           (Ingress.Upload name content) s)) = 500
      /\ Ingress.db (fst (Ingress.handleSubmit Base Join Marshal e
                            (Ingress.Upload name content) s))
         = Ingress.db s
      /\ Ingress.queue (fst (Ingress.handleSubmit Base Join Marshal e
                               (Ingress.Upload name content) s))
         = Ingress.queue s).
Proof.
  intros Hmk Hcr Hwr Hfresh.
  unfold Ingress.handleSubmit. rewrite Hmk, Hcr, Hwr.
  unfold Exec. destruct (Ingress.fault_insert e) as [x|] eqn:Hins.
  - cbn [fst snd Ingress.files Ingress.db Ingress.queue Ingress.code Ingress.http_Error].
    split; [apply file_content_written|].
    split; [discriminate|]. split; [discriminate|].
    intros _. repeat split.
  - cbn [run_stmt]. rewrite Hfresh. cbn [fst snd].
    destruct (Ingress.publish_err e);
      cbn [fst snd Ingress.files Ingress.db Ingress.queue Ingress.code Ingress.http_Error jobs].
    + split; [apply file_content_written|].
      split; [discriminate|]. split; [|congruence].
      intros _ _. repeat split. now apply find_job_inserted.
    + split; [apply file_content_written|].
      split; [|split; [discriminate | congruence]].
      intros _ _. repeat split.
Qed.

Lemma C7_witness :
  file_content
    (ex_Join (Ingress.uploadDir ex_submit_env)
             (Ingress.new_uuid ex_submit_env ++ "_" ++ ex_Base "tiny.fastq"))
    (Ingress.files (fst (Ingress.handleSubmit ex_Base ex_Join ex_Marshal ex_submit_env
                           (Ingress.Upload "tiny.fastq" "@r1") ex_submit_state)))
  = Some "@r1"
  /\ Ingress.code (snd (Ingress.handleSubmit ex_Base ex_Join ex_Marshal ex_submit_env
                          (Ingress.Upload "tiny.fastq" "@r1") ex_submit_state)) = 200
  /\ jobs (Ingress.db (fst (Ingress.handleSubmit ex_Base ex_Join ex_Marshal ex_submit_env
                              (Ingress.Upload "tiny.fastq" "@r1") ex_submit_state)))
     = [new_job "job-1" "tiny.fastq" 100]
  /\ Ingress.queue (fst (Ingress.handleSubmit ex_Base ex_Join ex_Marshal ex_submit_env
                           (Ingress.Upload "tiny.fastq" "@r1") ex_submit_state))
     = ["job-1|/data/uploads/job-1_tiny.fastq|none"].
Proof.
  destruct (C7_submit_in_order_without_rollback ex_Base ex_Join ex_Marshal ex_submit_env
              "tiny.fastq" "@r1" ex_submit_state eq_refl eq_refl eq_refl eq_refl)
    as (Hfile & Hok & _ & _).
  destruct (Hok eq_refl eq_refl) as (Hcode & Hjobs & Hqueue).
  split; [exact Hfile|]. split; [exact Hcode|]. split; [exact Hjobs | exact Hqueue].
Defined.

(** The publish fails: the caller is told 500 and no work item exists, but
    the job row is there in state Queued, as after a submission. *)
Lemma C7_counterexample :
  Ingress.code (snd (Ingress.handleSubmit ex_Base ex_Join ex_Marshal
                       ex_submit_env_queue_down ex_upload ex_submit_state)) = 500
  /\ Ingress.queue (fst (Ingress.handleSubmit ex_Base ex_Join ex_Marshal
                           ex_submit_env_queue_down ex_upload ex_submit_state)) = []
  /\ find_job "job-1"
       (Ingress.db (fst (Ingress.handleSubmit ex_Base ex_Join ex_Marshal
                           ex_submit_env_queue_down ex_upload ex_submit_state)))
     = Some {| j_id := "job-1"; j_filename := "tiny.fastq"; j_status := Queued;
               j_error := None; j_submitted_at := 100; j_completed_at := None |}.
Proof. repeat split; vm_compute; reflexivity. Qed.

(* ================================================================== *)
(** * Further properties *)
(* ================================================================== *)

Import Laws Examples2.

(** ** The scan loop on any stream *)

Lemma sums_cons (c : string) (cs : list string) :
  sum_len (c :: cs) = len (TrimSpace c) + sum_len cs
  /\ sum_gc (c :: cs) = count_bytes isGC (TrimSpace c) + sum_gc cs
  /\ sum_n (c :: cs) = count_bytes isN (TrimSpace c) + sum_n cs.
Proof. repeat split. Qed.

Lemma countb_disjoint (bs : list ascii) :
  countb isGC bs + countb isN bs <= Z.of_nat (List.length bs).
Proof.
  induction bs as [|a bs IH]; [unfold countb; simpl; lia|].
  rewrite !countb_cons. cbn [List.length].
  destruct (isGC a) eqn:Eg; [rewrite (isGC_not_isN a Eg); lia|].
  destruct (isN a); lia.
Qed.

Lemma count_bytes_disjoint (s : string) :
  count_bytes isGC s + count_bytes isN s <= len s.
Proof.
  unfold count_bytes, len. rewrite <- length_list_ascii_of_string.
  apply countb_disjoint.
Qed.

(** GC and N bytes are different bytes of the content. *)
Lemma sums_bounds (cs : list string) :
  0 <= sum_gc cs /\ 0 <= sum_n cs /\ sum_gc cs + sum_n cs <= sum_len cs.
Proof.
  induction cs as [|c cs IH].
  - unfold sum_gc, sum_n, sum_len; simpl; lia.
  - destruct (sums_cons c cs) as (-> & -> & ->).
    pose proof (count_bytes_bounds isGC (TrimSpace c)).
    pose proof (count_bytes_bounds isN (TrimSpace c)).
    pose proof (count_bytes_disjoint (TrimSpace c)). lia.
Qed.

Lemma content_positions_bounds (lines : list string) :
  sum_len (content_positions lines) <= sumZ (map len lines)
  /\ Z.of_nat (List.length (content_positions lines)) <= Z.of_nat (List.length lines).
Proof.
  induction lines as [| | | |h c p q rest IH] using list_ind4;
    cbn [content_positions map List.length].
  - unfold sum_len, sumZ; simpl; lia.
  - unfold sum_len, sumZ; simpl. pose proof (len_nonneg a). lia.
  - destruct (sums_cons b []) as (-> & _). unfold sum_len, sumZ; simpl.
    pose proof (len_nonneg a). pose proof (len_TrimSpace_le b). lia.
  - destruct (sums_cons b []) as (-> & _). unfold sum_len, sumZ; simpl.
    pose proof (len_nonneg a). pose proof (len_TrimSpace_le b).
    pose proof (len_nonneg c). lia.
  - destruct (sums_cons c (content_positions rest)) as (-> & _).
    unfold sumZ in *. cbn [fold_right].
    pose proof (len_nonneg h). pose proof (len_nonneg p). pose proof (len_nonneg q).
    pose proof (len_TrimSpace_le c). lia.
Qed.

(** The header of a group, from a group boundary. *)
Lemma scan_header (h : string) (cs : Counters) (k : Z) :
  lineIdx cs = 4 * k -> 0 <= k -> 4 * k + 1 < 2 ^ 63 ->
  scan_line cs h
  = {| lineIdx := 4 * k + 1; totalReads := totalReads cs;
       totalBases := totalBases cs; gcCount := gcCount cs; nCount := nCount cs |}.
Proof.
  intros Hi Hk Hmax.
  rewrite scan_line_other
    by (rewrite Hi; replace (4 * k) with (4 * k + 0) by lia; rewrite rem4; lia).
  rewrite Hi, wrap64_id by (unfold is_int64; lia). reflexivity.
Qed.

(** The header and the content line of a group. *)
Lemma scan_header_content (h c : string) (cs : Counters) (k : Z) :
  lineIdx cs = 4 * k -> 0 <= k -> 4 * k + 2 < 2 ^ 63 ->
  0 <= totalReads cs -> totalReads cs + 1 < 2 ^ 63 ->
  0 <= totalBases cs -> totalBases cs + len (TrimSpace c) < 2 ^ 63 ->
  0 <= gcCount cs <= totalBases cs -> 0 <= nCount cs <= totalBases cs ->
  scan_line (scan_line cs h) c
  = {| lineIdx := 4 * k + 2;
       totalReads := totalReads cs + 1;
       totalBases := totalBases cs + len (TrimSpace c);
       gcCount := gcCount cs + count_bytes isGC (TrimSpace c);
       nCount := nCount cs + count_bytes isN (TrimSpace c) |}.
Proof.
  intros Hi Hk Hmax Hr0 Hr Hb0 Hb Hg0 Hn0.
  pose proof (count_bytes_bounds isGC (TrimSpace c)) as Bg.
  pose proof (count_bytes_bounds isN (TrimSpace c)) as Bn.
  pose proof (len_nonneg (TrimSpace c)) as Bl.
  rewrite (scan_header h cs k) by lia.
  rewrite scan_line_content; cbn [lineIdx totalReads totalBases gcCount nCount];
    [ | apply rem4; lia | unfold is_int64; lia | unfold is_int64; lia ].
  rewrite !wrap64_id by (unfold is_int64; lia).
  f_equal. lia.
Qed.

(** A line at position 2 or 3 of its group. *)
Lemma scan_tail (p : string) (cs : Counters) (k r : Z) :
  lineIdx cs = 4 * k + r -> 0 <= k -> 2 <= r < 4 -> 4 * k + r + 1 < 2 ^ 63 ->
  scan_line cs p
  = {| lineIdx := 4 * k + r + 1; totalReads := totalReads cs;
       totalBases := totalBases cs; gcCount := gcCount cs; nCount := nCount cs |}.
Proof.
  intros Hi Hk Hr Hmax.
  rewrite scan_line_other by (rewrite Hi, rem4; lia).
  rewrite Hi, wrap64_id by (unfold is_int64; lia). reflexivity.
Qed.

(** The loop from a group boundary, on any stream that leaves room in the
    counters. *)
Lemma scan_any (lines : list string) :
  forall (cs : Counters) (k : Z),
    lineIdx cs = 4 * k -> 0 <= k ->
    4 * k + Z.of_nat (List.length lines) < 2 ^ 63 ->
    0 <= totalReads cs ->
    totalReads cs + Z.of_nat (List.length (content_positions lines)) < 2 ^ 63 ->
    0 <= totalBases cs -> totalBases cs + sum_len (content_positions lines) < 2 ^ 63 ->
    0 <= gcCount cs <= totalBases cs -> 0 <= nCount cs <= totalBases cs ->
    fold_left scan_line lines cs
    = {| lineIdx := 4 * k + Z.of_nat (List.length lines);
         totalReads := totalReads cs + Z.of_nat (List.length (content_positions lines));
         totalBases := totalBases cs + sum_len (content_positions lines);
         gcCount := gcCount cs + sum_gc (content_positions lines);
         nCount := nCount cs + sum_n (content_positions lines) |}.
Proof.
  induction lines as [| | | |h c p q rest IH] using list_ind4;
    intros cs k Hi Hk Hmax Hr0 Hr Hb0 Hb Hg0 Hn0.
  - destruct cs as [i r b g n]. cbn in *. subst i.
    unfold sum_len, sum_gc, sum_n, sumZ. cbn. f_equal; lia.
  - cbn [fold_left content_positions List.length] in *.
    rewrite (scan_header a cs k) by lia.
    unfold sum_len, sum_gc, sum_n, sumZ. cbn. f_equal; lia.
  - cbn [fold_left content_positions List.length] in *.
    destruct (sums_cons b []) as (El & Eg & En). rewrite El in *. rewrite Eg, En.
    unfold sum_len, sum_gc, sum_n, sumZ in *. cbn [map fold_right] in *.
    rewrite (scan_header_content a b cs k) by lia.
    f_equal; lia.
  - cbn [fold_left content_positions List.length] in *.
    destruct (sums_cons b []) as (El & Eg & En). rewrite El in *. rewrite Eg, En.
    unfold sum_len, sum_gc, sum_n, sumZ in *. cbn [map fold_right] in *.
    rewrite (scan_header_content a b cs k) by lia.
    rewrite (scan_tail c _ k 2); cbn [lineIdx totalReads totalBases gcCount nCount];
      try lia.
    f_equal; lia.
  - cbn [content_positions] in *.
    destruct (sums_cons c (content_positions rest)) as (El & Eg & En).
    rewrite El in *. rewrite Eg, En.
    pose proof (sums_bounds (content_positions rest)) as (Bg & Bn & Bs).
    pose proof (count_bytes_bounds isGC (TrimSpace c)) as Cg.
    pose proof (count_bytes_bounds isN (TrimSpace c)) as Cn.
    pose proof (len_nonneg (TrimSpace c)) as Bl.
    assert (Hlen : Z.of_nat (List.length (h :: c :: p :: q :: rest))
                   = 4 + Z.of_nat (List.length rest))
      by (cbn [List.length]; lia).
    assert (Hcnt : Z.of_nat (List.length (c :: content_positions rest))
                   = 1 + Z.of_nat (List.length (content_positions rest)))
      by (cbn [List.length]; lia).
    rewrite Hlen, Hcnt in *.
    change (fold_left scan_line (h :: c :: p :: q :: rest) cs)
      with (fold_left scan_line rest (fold_left scan_line [h; c; p; q] cs)).
    rewrite (scan_group h c p q cs k) by lia.
    rewrite (IH _ (k + 1)); cbn [lineIdx totalReads totalBases gcCount nCount];
      try lia.
    f_equal; lia.
Qed.

(** The number of counted lines: one per started group that has its second
    line. *)
Lemma content_positions_length (lines : list string) :
  List.length (content_positions lines) = ((List.length lines + 2) / 4)%nat.
Proof.
  induction lines as [| | | |h c p q rest IH] using list_ind4;
    cbn [content_positions List.length]; try reflexivity.
  rewrite IH.
  replace (S (S (S (S (List.length rest)))) + 2)%nat
    with (1 * 4 + (List.length rest + 2))%nat by lia.
  now rewrite Nat.div_add_l by lia.
Qed.

Lemma scan_fits (lines : list string) :
  fits_int64 lines ->
  scan lines
  = {| lineIdx := Z.of_nat (List.length lines);
       totalReads := Z.of_nat (List.length (content_positions lines));
       totalBases := sum_len (content_positions lines);
       gcCount := sum_gc (content_positions lines);
       nCount := sum_n (content_positions lines) |}.
Proof.
  intros [Hl Hs]. unfold scan.
  pose proof (content_positions_bounds lines) as (Bl & Bc).
  pose proof (sums_bounds (content_positions lines)) as (Bg & Bn & Bs).
  rewrite (scan_any lines counters0 0);
    cbn [counters0 lineIdx totalReads totalBases gcCount nCount]; try lia.
  f_equal; lia.
Qed.

(** X1.  On any stream a file can hold, complete groups or not, the loop
    counts exactly the lines at an index that is 1 modulo 4: a last group cut
    off after its second line still counts, one cut off after its header does
    not.  The number of records is [(lines + 2) / 4], and the three totals
    are those of the counted lines. *)
Theorem X1_scan_counts_every_second_line_of_four (lines : list string) :
  fits_int64 lines ->
  totalReads (scan lines) = Z.of_nat ((List.length lines + 2) / 4)
  /\ totalReads (scan lines) = Z.of_nat (List.length (content_positions lines))
  /\ totalBases (scan lines) = sum_len (content_positions lines)
  /\ gcCount (scan lines) = sum_gc (content_positions lines)
  /\ nCount (scan lines) = sum_n (content_positions lines).
Proof.
  intros Hfit. rewrite (scan_fits lines Hfit).
  cbn [totalReads totalBases gcCount nCount].
  rewrite content_positions_length. repeat split.
Qed.

Lemma X1_witness :
  totalReads (scan ex_lines_truncated)
  = Z.of_nat ((List.length ex_lines_truncated + 2) / 4)
  /\ totalReads (scan ex_lines_truncated)
     = Z.of_nat (List.length (content_positions ex_lines_truncated))
  /\ totalBases (scan ex_lines_truncated) = sum_len (content_positions ex_lines_truncated)
  /\ gcCount (scan ex_lines_truncated) = sum_gc (content_positions ex_lines_truncated)
  /\ nCount (scan ex_lines_truncated) = sum_n (content_positions ex_lines_truncated).
Proof.
  apply (X1_scan_counts_every_second_line_of_four ex_lines_truncated).
  split; vm_compute; reflexivity.
Defined.

(** X2.  The counters the loop ends with are consistent: none is negative,
    the GC count and the N count together do not exceed the total content
    length, there are no more records than lines, and the content is no
    longer than the stream. *)
Theorem X2_scan_counters_consistent (lines : list string) :
  fits_int64 lines ->
  0 <= gcCount (scan lines)
  /\ 0 <= nCount (scan lines)
  /\ gcCount (scan lines) + nCount (scan lines) <= totalBases (scan lines)
  /\ 0 <= totalReads (scan lines) <= Z.of_nat (List.length lines)
  /\ totalBases (scan lines) <= sumZ (map len lines).
Proof.
  intros Hfit. rewrite (scan_fits lines Hfit).
  cbn [totalReads totalBases gcCount nCount].
  pose proof (content_positions_bounds lines) as (Bl & Bc).
  pose proof (sums_bounds (content_positions lines)) as (Bg & Bn & Bs).
  repeat split; lia.
Qed.

Lemma X2_witness :
  0 <= gcCount (scan ex_lines_truncated)
  /\ 0 <= nCount (scan ex_lines_truncated)
  /\ gcCount (scan ex_lines_truncated) + nCount (scan ex_lines_truncated)
     <= totalBases (scan ex_lines_truncated)
  /\ 0 <= totalReads (scan ex_lines_truncated)
     <= Z.of_nat (List.length ex_lines_truncated)
  /\ totalBases (scan ex_lines_truncated) <= sumZ (map len ex_lines_truncated).
Proof.
  apply (X2_scan_counters_consistent ex_lines_truncated).
  split; vm_compute; reflexivity.
Defined.

(** X3.  Headers, separators and quality lines are never looked at: two
    streams of the same length with the same lines at the counted positions
    end the loop in the same state. *)
Theorem X3_scan_ignores_framing (lines lines' : list string) :
  fits_int64 lines -> fits_int64 lines' ->
  List.length lines = List.length lines' ->
  content_positions lines = content_positions lines' ->
  scan lines = scan lines'.
Proof.
  intros Hfit Hfit' Hlen Hc.
  rewrite (scan_fits lines Hfit), (scan_fits lines' Hfit').
  now rewrite Hlen, Hc.
Qed.

Lemma X3_witness : scan ex_lines = scan ex_lines_other_framing.
Proof.
  apply (X3_scan_ignores_framing ex_lines ex_lines_other_framing).
  - split; vm_compute; reflexivity.
  - split; vm_compute; reflexivity.
  - reflexivity.
  - reflexivity.
Defined.

(** X4.  No division by zero: when the counted lines hold no byte after
    trimming (an empty stream, a lone header, blank content lines),
    [processFASTQ] stores the number of counted lines as [reads] and zero
    for both fractions; with no counted line at all it also stores zero for
    the average length. *)
Theorem X4_no_content_gives_zero_fractions
    (e : Env) (jobID path : string) (lines : list string) (w : State) :
  fs e path = Stream lines None ->
  fits_int64 lines ->
  sum_len (content_positions lines) = 0 ->
  fault_upsert e = None ->
  has_job jobID (db w) = true ->
  exists row,
    find_qc jobID (db (fst (processFASTQ e jobID path w))) = Some row
    /\ qc_reads row = Z.of_nat (List.length (content_positions lines))
    /\ qc_gc_content row = 0%float
    /\ qc_n_content row = 0%float
    /\ (content_positions lines = [] -> qc_avg_read_length row = 0%float).
Proof.
  intros Hfs Hfit Hzero Hfault Hjob.
  exists (result_row jobID (scan lines) (analysis_ms e)).
  unfold processFASTQ. rewrite Hfs, Hfault.
  unfold db_Exec, Exec, run_stmt. cbn [qc_job_id result_row]. rewrite Hjob.
  cbn [fst snd db qc_results]. split.
  - unfold find_qc. cbn [qc_results].
    apply (find_upsert_row (result_row jobID (scan lines) (analysis_ms e))).
  - rewrite (scan_fits lines Hfit).
    unfold result_row, avgLen, gcFrac, nFrac.
    cbn [qc_reads qc_avg_read_length qc_gc_content qc_n_content
         totalReads totalBases gcCount nCount].
    rewrite Hzero. repeat split. intros ->. reflexivity.
Qed.

Lemma X4_witness :
  exists row,
    find_qc "job-1" (db (fst (processFASTQ ex_env_blank "job-1" ex_path (start ex_queued_db))))
    = Some row
    /\ qc_reads row = Z.of_nat (List.length (content_positions ex_lines_blank))
    /\ qc_gc_content row = 0%float
    /\ qc_n_content row = 0%float
    /\ (content_positions ex_lines_blank = [] -> qc_avg_read_length row = 0%float).
Proof.
  apply (X4_no_content_gives_zero_fractions ex_env_blank "job-1" ex_path ex_lines_blank
           (start ex_queued_db)).
  - reflexivity.
  - split; vm_compute; reflexivity.
  - reflexivity.
  - reflexivity.
  - reflexivity.
Defined.

(** ** What a delivery does to the database, statement by statement *)

Lemma run_stmts_app (now : Z) (qs1 qs2 : list (option string * Stmt)) (d : DB) :
  run_stmts now (qs1 ++ qs2) d = run_stmts now qs2 (run_stmts now qs1 d).
Proof. unfold run_stmts. apply fold_left_app. Qed.

(** The database after a delivery is the database before it with at most
    three statements run, all of the worker's kind and all about the job of
    the work item; an undecodable body runs none. *)
Lemma handleDelivery_db_steps (unm : string -> option QueueMessage) (e : Env)
    (body : string) (w : State) :
  exists qs,
    db (handleDelivery unm e body w) = run_stmts (now e) qs (db w)
    /\ Forall (fun fq => worker_stmt (snd fq) = true) qs
    /\ (forall msg, unm body = Some msg ->
                    Forall (fun fq => stmt_job (snd fq) = JobID msg) qs)
    /\ (unm body = None -> qs = []).
Proof.
  unfold handleDelivery. destruct (unm body) as [msg|] eqn:Hunm.
  2:{ exists []. repeat split; auto. }
  remember (fst (setStatus (fault_processing e) (now e) (JobID msg) "processing" None w))
    as w1 eqn:Hw1.
  assert (D1 : db w1 = run_stmts (now e)
                         [(fault_processing e, UpdateStatus (JobID msg) "processing" None)]
                         (db w)) by (subst w1; reflexivity).
  clear Hw1.
  destruct (snd (processFASTQ e (JobID msg) (Path msg) w1)) as [err|] eqn:Herr.
  - destruct (processFASTQ_cases e (JobID msg) (Path msg) w1) as [[err' E]|(lines & _ & E)];
      rewrite E; run_worker; rewrite ?db_Exec_db; cbn [db]; rewrite D1.
    + exists [(fault_processing e, UpdateStatus (JobID msg) "processing" None);
              (fault_error e, UpdateStatus (JobID msg) "error" (Some err))].
      split; [reflexivity|]. split; [repeat constructor|].
      split; [|discriminate]. intros m Hm. injection Hm as <-. repeat constructor.
    + exists [(fault_processing e, UpdateStatus (JobID msg) "processing" None);
              (fault_upsert e,
               UpsertQC (result_row (JobID msg) (scan lines) (analysis_ms e)));
              (fault_error e, UpdateStatus (JobID msg) "error" (Some err))].
      split; [reflexivity|]. split; [repeat constructor|].
      split; [|discriminate]. intros m Hm. injection Hm as <-. repeat constructor.
  - destruct (processFASTQ_cases e (JobID msg) (Path msg) w1) as [[err' E]|(lines & _ & E)];
      [rewrite E in Herr; discriminate|].
    rewrite E. run_worker. rewrite !db_Exec_db. cbn [db]. rewrite D1.
    exists [(fault_processing e, UpdateStatus (JobID msg) "processing" None);
            (fault_upsert e,
             UpsertQC (result_row (JobID msg) (scan lines) (analysis_ms e)));
            (fault_done e, UpdateDone (JobID msg))].
    split; [reflexivity|]. split; [repeat constructor|].
    split; [|discriminate]. intros m Hm. injection Hm as <-. repeat constructor.
Qed.

Lemma find_qc_upsert_other (r : QCRow) (t : list QCRow) (id : string) :
  id <> qc_job_id r ->
  find (fun x => String.eqb (qc_job_id x) id) (upsert_row r t)
  = find (fun x => String.eqb (qc_job_id x) id) t.
Proof.
  intros Hne. induction t as [|x t IH]; cbn [upsert_row find].
  - destruct (String.eqb_spec (qc_job_id r) id); [congruence | reflexivity].
  - destruct (String.eqb_spec (qc_job_id x) (qc_job_id r)) as [E|E]; cbn [find qc_job_id].
    + destruct (String.eqb_spec (qc_job_id x) id); [congruence | reflexivity].
    + now rewrite IH.
Qed.

Lemma find_job_app_other (id id' f : string) (now : Z) (t : list JobRow) :
  id' <> id ->
  find (fun j => String.eqb (j_id j) id') (t ++ [new_job id f now])
  = find (fun j => String.eqb (j_id j) id') t.
Proof.
  intros Hne. induction t as [|x t IH]; cbn [app find new_job j_id].
  - destruct (String.eqb_spec id id'); [congruence | reflexivity].
  - now rewrite IH.
Qed.

(** A statement about one job leaves the rows of every other job. *)
Lemma Exec_other_job (fault : option string) (now : Z) (q : Stmt) (d : DB) (id' : string) :
  id' <> stmt_job q ->
  find_job id' (fst (Exec fault now q d)) = find_job id' d
  /\ find_qc id' (fst (Exec fault now q d)) = find_qc id' d.
Proof.
  intros Hne. unfold Exec. destruct fault; [now split|].
  destruct q as [id f|id s reason|id|r]; cbn [run_stmt stmt_job] in *.
  - destruct (has_job id d); [now split|]. split; [|reflexivity].
    unfold find_job. cbn [fst jobs]. now apply find_job_app_other.
  - destruct (has_job id d && negb (status_check s)); [now split|].
    split; [|reflexivity]. cbn [fst].
    apply (find_job_not_updated id id' (fun j => with_status j s reason) d); auto.
  - split; [|reflexivity]. cbn [fst].
    apply (find_job_not_updated id id' (fun j => with_done j now) d); auto.
  - destruct (has_job (qc_job_id r) d); [|now split]. split; [reflexivity|].
    unfold find_qc. cbn [fst qc_results]. now apply find_qc_upsert_other.
Qed.

Lemma run_stmts_other_job (now : Z) (qs : list (option string * Stmt)) (id id' : string) :
  id' <> id ->
  Forall (fun fq => stmt_job (snd fq) = id) qs ->
  forall d,
    find_job id' (run_stmts now qs d) = find_job id' d
    /\ find_qc id' (run_stmts now qs d) = find_qc id' d.
Proof.
  intros Hne Hqs. induction Hqs as [|[f q] qs Hq _ IH]; intros d; [now split|].
  change (run_stmts now ((f, q) :: qs) d) with (run_stmts now qs (fst (Exec f now q d))).
  destruct (IH (fst (Exec f now q d))) as [-> ->].
  apply Exec_other_job. cbn [snd] in Hq. congruence.
Qed.

(** X5.  A delivery touches the rows of one job only: for every other job
    id, the job row and the result row are after the delivery what they were
    before it, whatever fails on the way. *)
Theorem X5_delivery_touches_only_its_job
    (unm : string -> option QueueMessage) (e : Env) (body : string)
    (msg : QueueMessage) (w : State) (id' : string) :
  unm body = Some msg ->
  id' <> JobID msg ->
  find_job id' (db (handleDelivery unm e body w)) = find_job id' (db w)
  /\ find_qc id' (db (handleDelivery unm e body w)) = find_qc id' (db w).
Proof.
  intros Hunm Hne.
  destruct (handleDelivery_db_steps unm e body w) as (qs & -> & _ & Hjob & _).
  apply (run_stmts_other_job (now e) qs (JobID msg) id' Hne (Hjob msg Hunm)).
Qed.

Lemma X5_witness :
  find_job "job-2" (db (handleDelivery ex_Unmarshal ex_env "item" (start ex_two_jobs_db)))
  = find_job "job-2" (db (start ex_two_jobs_db))
  /\ find_qc "job-2" (db (handleDelivery ex_Unmarshal ex_env "item" (start ex_two_jobs_db)))
     = find_qc "job-2" (db (start ex_two_jobs_db)).
Proof.
  apply (X5_delivery_touches_only_its_job ex_Unmarshal ex_env "item" ex_msg
           (start ex_two_jobs_db) "job-2").
  - reflexivity.
  - discriminate.
Defined.

Lemma update_jobs_identity (id : string) (set : JobRow -> JobRow) (t : list JobRow) :
  (forall j, job_identity (set j) = job_identity j) ->
  map job_identity (update_jobs id set t) = map job_identity t.
Proof.
  intros Hset. unfold update_jobs. rewrite map_map. apply map_ext.
  intros j. destruct (String.eqb (j_id j) id); auto.
Qed.

(** No statement of the worker adds, removes, reorders or renames a job. *)
Lemma Exec_job_identity (fault : option string) (now : Z) (q : Stmt) (d : DB) :
  worker_stmt q = true ->
  map job_identity (jobs (fst (Exec fault now q d))) = map job_identity (jobs d).
Proof.
  intros Hq. unfold Exec. destruct fault; [reflexivity|].
  destruct q as [id f|id s reason|id|r]; cbn [run_stmt]; try discriminate.
  - destruct (has_job id d && negb (status_check s)); [reflexivity|].
    cbn [fst jobs]. now apply update_jobs_identity.
  - cbn [fst jobs]. now apply update_jobs_identity.
  - destruct (has_job (qc_job_id r) d); reflexivity.
Qed.

Lemma run_stmts_job_identity (now : Z) (qs : list (option string * Stmt)) :
  Forall (fun fq => worker_stmt (snd fq) = true) qs ->
  forall d, map job_identity (jobs (run_stmts now qs d)) = map job_identity (jobs d).
Proof.
  intros Hqs. induction Hqs as [|[f q] qs Hq _ IH]; intros d; [reflexivity|].
  change (run_stmts now ((f, q) :: qs) d) with (run_stmts now qs (fst (Exec f now q d))).
  rewrite IH. now apply Exec_job_identity.
Qed.

Lemma run_stmts_find_qc (now : Z) (qs : list (option string * Stmt)) (id : string) :
  forall d, find_qc id d <> None -> find_qc id (run_stmts now qs d) <> None.
Proof.
  induction qs as [|[f q] qs IH]; intros d Hd; [assumption|].
  change (run_stmts now ((f, q) :: qs) d) with (run_stmts now qs (fst (Exec f now q d))).
  apply IH. now apply Exec_find_qc.
Qed.

(** X6.  The consume loop never creates, deletes, reorders or renames a job
    and never deletes a result: after any number of deliveries the jobs are
    the same jobs, each with its id, file name and submission time, and every
    job that had a result still has one. *)
Theorem X6_consume_keeps_jobs_and_results
    (unm : string -> option QueueMessage) (ds : list (Env * string)) (w : State) :
  map job_identity (jobs (db (consume unm ds w))) = map job_identity (jobs (db w))
  /\ (forall id, find_qc id (db w) <> None -> find_qc id (db (consume unm ds w)) <> None).
Proof.
  unfold consume. revert w.
  induction ds as [|[e body] ds IH]; intros w; cbn [fold_left fst snd].
  - split; auto.
  - destruct (IH (handleDelivery unm e body w)) as [Hid Hqc].
    destruct (handleDelivery_db_steps unm e body w) as (qs & Hdb & Hw & _).
    split.
    + rewrite Hid, Hdb. now apply run_stmts_job_identity.
    + intros id Hq. apply Hqc. rewrite Hdb. now apply run_stmts_find_qc.
Qed.

(** ** Acknowledgments and collectors *)

Lemma same_accounts_refl (w : State) : same_accounts w w.
Proof. repeat split. Qed.

Lemma same_accounts_db_Exec (fault : option string) (now : Z) (q : Stmt) (w : State) :
  same_accounts (fst (db_Exec fault now q w)) w.
Proof.
  repeat split. unfold acks. rewrite db_Exec_trace, filter_app. cbn [filter].
  apply app_nil_r.
Qed.

Lemma same_accounts_processFASTQ (e : Env) (jobID path : string) (w : State) :
  same_accounts (fst (processFASTQ e jobID path w)) w.
Proof.
  destruct (processFASTQ_cases e jobID path w) as [[err E]|(lines & _ & E)]; rewrite E.
  - apply same_accounts_refl.
  - apply same_accounts_db_Exec.
Qed.

(** One delivery: acknowledged and counted as processed when the analysis
    succeeded, discarded and counted as failed otherwise. *)
Lemma handleDelivery_accounting (unm : string -> option QueueMessage) (e : Env)
    (body : string) (w : State) :
  ((exists msg, unm body = Some msg
                /\ snd (processFASTQ e (JobID msg) (Path msg) w) = None)
   /\ acks (handleDelivery unm e body w) = (acks w ++ [EvAck false])%list
   /\ jobsProcessed (handleDelivery unm e body w) = jobsProcessed w + 1
   /\ jobFailures (handleDelivery unm e body w) = jobFailures w
   /\ jobDuration (handleDelivery unm e body w) = (jobDuration w ++ [elapsed_ms e])%list)
  \/ ((unm body = None
       \/ exists msg err, unm body = Some msg
                          /\ snd (processFASTQ e (JobID msg) (Path msg) w) = Some err)
      /\ acks (handleDelivery unm e body w) = (acks w ++ [EvNack false false])%list
      /\ jobsProcessed (handleDelivery unm e body w) = jobsProcessed w
      /\ jobFailures (handleDelivery unm e body w) = jobFailures w + 1
      /\ jobDuration (handleDelivery unm e body w) = jobDuration w).
Proof.
  unfold handleDelivery. destruct (unm body) as [msg|] eqn:Hunm.
  2:{ right. split; [now left|]. repeat split.
      unfold acks, Nack, emit, jobFailures_Inc. cbn [trace].
      now rewrite filter_app. }
  remember (fst (setStatus (fault_processing e) (now e) (JobID msg) "processing" None w))
    as w1 eqn:Hw1.
  assert (A1 : same_accounts w1 w) by (subst w1; apply same_accounts_db_Exec).
  assert (Hcongr : snd (processFASTQ e (JobID msg) (Path msg) w1)
                   = snd (processFASTQ e (JobID msg) (Path msg) w)).
  { apply processFASTQ_err_congr. subst w1. apply setStatus_has_job. }
  clear Hw1.
  pose proof (same_accounts_processFASTQ e (JobID msg) (Path msg) w1) as A2.
  destruct A1 as (Ha1 & Hp1 & Hf1 & Hd1). destruct A2 as (Ha2 & Hp2 & Hf2 & Hd2).
  destruct (snd (processFASTQ e (JobID msg) (Path msg) w1)) as [err|] eqn:Herr.
  - right. split; [right; exists msg, err; auto|].
    set (w2 := fst (processFASTQ e (JobID msg) (Path msg) w1)) in *.
    destruct (same_accounts_db_Exec (fault_error e) (now e)
                (UpdateStatus (JobID msg) "error" (Some err)) (Nack false false w2))
      as (Ha3 & Hp3 & Hf3 & Hd3).
    unfold jobFailures_Inc, setStatus. cbn [jobsProcessed jobFailures jobDuration].
    unfold acks at 1. cbn [trace]. fold (acks (fst (db_Exec (fault_error e) (now e)
      (UpdateStatus (JobID msg) "error" (Some err)) (Nack false false w2)))).
    rewrite Ha3, Hp3, Hf3, Hd3.
    unfold Nack, emit, acks. cbn [trace jobsProcessed jobFailures jobDuration].
    rewrite filter_app. cbn [filter]. fold (acks w2). fold (acks w).
    rewrite Ha2, Ha1, Hp2, Hp1, Hf2, Hf1, Hd2, Hd1. repeat split.
  - left. split; [exists msg; auto|].
    set (w2 := fst (processFASTQ e (JobID msg) (Path msg) w1)) in *.
    destruct (same_accounts_db_Exec (fault_done e) (now e) (UpdateDone (JobID msg))
                (jobDuration_Observe (elapsed_ms e) (jobsProcessed_Inc (Ack false w2))))
      as (Ha3 & Hp3 & Hf3 & Hd3).
    unfold setDone. rewrite Ha3, Hp3, Hf3, Hd3.
    unfold jobDuration_Observe, jobsProcessed_Inc, Ack, emit, acks.
    cbn [trace jobsProcessed jobFailures jobDuration].
    rewrite filter_app. cbn [filter]. fold (acks w2). fold (acks w).
    rewrite Ha2, Ha1, Hp2, Hp1, Hf2, Hf1, Hd2, Hd1. repeat split.
Qed.

(** X7.  Every delivery is answered exactly once, and never with a requeue:
    after [n] deliveries the loop has sent [n] acknowledgments, each
    [Ack(false)] or [Nack(false, false)]; the processed counter has grown by
    the number of acks and has one duration observed per ack, the failure
    counter has grown by the number of nacks. *)
Theorem X7_consume_answers_each_delivery_once
    (unm : string -> option QueueMessage) (ds : list (Env * string)) (w : State) :
  exists answers,
    acks (consume unm ds w) = (acks w ++ answers)%list
    /\ List.length answers = List.length ds
    /\ Forall single_ack_or_discard answers
    /\ jobsProcessed (consume unm ds w)
       = jobsProcessed w + Z.of_nat (List.length (filter is_ack answers))
    /\ jobFailures (consume unm ds w)
       = jobFailures w + Z.of_nat (List.length (filter is_nack answers))
    /\ List.length (jobDuration (consume unm ds w))
       = (List.length (jobDuration w) + List.length (filter is_ack answers))%nat.
Proof.
  unfold consume. revert w.
  induction ds as [|[e body] ds IH]; intros w; cbn [fold_left fst snd].
  - exists []. rewrite app_nil_r. cbn. repeat split; try lia. constructor.
  - destruct (IH (handleDelivery unm e body w)) as (rest & Ha & Hl & Hall & Hp & Hf & Hd).
    destruct (handleDelivery_accounting unm e body w)
      as [(_ & Ha1 & Hp1 & Hf1 & Hd1)|(_ & Ha1 & Hp1 & Hf1 & Hd1)].
    + exists (EvAck false :: rest).
      rewrite Ha, Hp, Hf, Hd, Ha1, Hp1, Hf1, Hd1, <- app_assoc, length_app.
      cbn [app filter is_ack is_nack List.length].
      repeat split; try lia. constructor; [now left | assumption].
    + exists (EvNack false false :: rest).
      rewrite Ha, Hp, Hf, Hd, Ha1, Hp1, Hf1, Hd1, <- app_assoc.
      cbn [app filter is_ack is_nack List.length].
      repeat split; try lia. constructor; [now right | assumption].
Qed.

(** ** A work item for a job that is not in the table *)

Lemma update_jobs_absent (id : string) (set : JobRow -> JobRow) (d : DB) :
  has_job id d = false -> update_jobs id set (jobs d) = jobs d.
Proof.
  unfold has_job, update_jobs. induction (jobs d) as [|x t IH]; cbn [existsb map];
    [reflexivity|].
  destruct (String.eqb (j_id x) id); cbn [orb]; [discriminate|].
  intros H. now rewrite IH.
Qed.

Lemma Exec_absent_job (fault : option string) (now : Z) (q : Stmt) (d : DB) :
  worker_stmt q = true -> has_job (stmt_job q) d = false ->
  fst (Exec fault now q d) = d.
Proof.
  intros Hq Hj. unfold Exec. destruct fault; [reflexivity|].
  destruct q as [id f|id s reason|id|r]; cbn [run_stmt stmt_job] in *; try discriminate.
  - rewrite Hj. cbn [andb fst]. rewrite update_jobs_absent by assumption. now destruct d.
  - cbn [fst]. rewrite update_jobs_absent by assumption. now destruct d.
  - now rewrite Hj.
Qed.

Lemma run_stmts_absent_job (now : Z) (qs : list (option string * Stmt)) (id : string)
    (d : DB) :
  Forall (fun fq => worker_stmt (snd fq) = true) qs ->
  Forall (fun fq => stmt_job (snd fq) = id) qs ->
  has_job id d = false ->
  run_stmts now qs d = d.
Proof.
  intros Hw Hj Hd. induction qs as [|[f q] qs IH]; [reflexivity|].
  inversion Hw as [|? ? Hw1 Hw2]; inversion Hj as [|? ? Hj1 Hj2]; subst.
  cbn [snd] in *.
  change (run_stmts now ((f, q) :: qs) d) with (run_stmts now qs (fst (Exec f now q d))).
  rewrite Exec_absent_job by (auto; now rewrite Hj1). auto.
Qed.

Lemma processFASTQ_unknown_job (e : Env) (jobID path : string) (w : State) :
  has_job jobID (db w) = false ->
  exists err, snd (processFASTQ e jobID path w) = Some err.
Proof.
  intros Hj. destruct (snd (processFASTQ e jobID path w)) as [err|] eqn:E; [eauto|].
  apply processFASTQ_ok_db in E. destruct E as [E _]. congruence.
Qed.

(** X8.  A work item that names a job the table does not have changes
    nothing in the database, whatever its file holds: no job row appears, no
    result is stored (the foreign key refuses it), the delivery is discarded
    without requeue and counted as a failure. *)
Theorem X8_unknown_job_is_discarded
    (unm : string -> option QueueMessage) (e : Env) (body : string)
    (msg : QueueMessage) (w : State) :
  unm body = Some msg ->
  has_job (JobID msg) (db w) = false ->
  db (handleDelivery unm e body w) = db w
  /\ acks (handleDelivery unm e body w) = (acks w ++ [EvNack false false])%list
  /\ jobFailures (handleDelivery unm e body w) = jobFailures w + 1
  /\ jobsProcessed (handleDelivery unm e body w) = jobsProcessed w.
Proof.
  intros Hunm Hj. split.
  - destruct (handleDelivery_db_steps unm e body w) as (qs & -> & Hw & Hjob & _).
    apply (run_stmts_absent_job (now e) qs (JobID msg)); auto.
  - destruct (processFASTQ_unknown_job e (JobID msg) (Path msg) w Hj) as [err Herr].
    destruct (handleDelivery_accounting unm e body w)
      as [((m & Hm & Hok) & _)|(_ & Ha & Hp & Hf & _)].
    + rewrite Hunm in Hm. injection Hm as <-. congruence.
    + auto.
Qed.

Lemma X8_witness :
  db (handleDelivery ex_Unmarshal2 ex_env "item-unknown" (start ex_queued_db))
  = db (start ex_queued_db)
  /\ acks (handleDelivery ex_Unmarshal2 ex_env "item-unknown" (start ex_queued_db))
     = (acks (start ex_queued_db) ++ [EvNack false false])%list
  /\ jobFailures (handleDelivery ex_Unmarshal2 ex_env "item-unknown" (start ex_queued_db))
     = jobFailures (start ex_queued_db) + 1
  /\ jobsProcessed (handleDelivery ex_Unmarshal2 ex_env "item-unknown" (start ex_queued_db))
     = jobsProcessed (start ex_queued_db).
Proof.
  apply (X8_unknown_job_is_discarded ex_Unmarshal2 ex_env "item-unknown" ex_msg_unknown
           (start ex_queued_db)).
  - reflexivity.
  - reflexivity.
Defined.

(** ** A delivery whose file is read *)

Lemma update_jobs_compose (id : string) (g h : JobRow -> JobRow) (t : list JobRow) :
  (forall j, j_id (h j) = j_id j) ->
  update_jobs id g (update_jobs id h t) = update_jobs id (fun j => g (h j)) t.
Proof.
  intros Hh. unfold update_jobs. rewrite map_map. apply map_ext.
  intros j. destruct (String.eqb (j_id j) id) eqn:E; [|now rewrite E].
  now rewrite Hh, E.
Qed.

Lemma update_jobs_ext (id : string) (g h : JobRow -> JobRow) (t : list JobRow) :
  (forall j, g j = h j) -> update_jobs id g t = update_jobs id h t.
Proof.
  intros Hgh. unfold update_jobs. apply map_ext.
  intros j. destruct (String.eqb (j_id j) id); auto.
Qed.

(** The file is read and the first two statements go through: the row is
    stored, the delivery is acknowledged, and the database is what [setDone]
    makes of it. *)
Lemma handleDelivery_analyzed (unm : string -> option QueueMessage) (e : Env)
    (body : string) (msg : QueueMessage) (lines : list string) (w : State) :
  unm body = Some msg ->
  fs e (Path msg) = Stream lines None ->
  fault_processing e = None -> fault_upsert e = None ->
  has_job (JobID msg) (db w) = true ->
  snd (processFASTQ e (JobID msg) (Path msg) w) = None
  /\ db (handleDelivery unm e body w)
     = fst (Exec (fault_done e) (now e) (UpdateDone (JobID msg))
              {| jobs := update_jobs (JobID msg)
                           (fun j => with_status j Processing None) (jobs (db w));
                 qc_results := upsert_row
                                 (result_row (JobID msg) (scan lines) (analysis_ms e))
                                 (qc_results (db w)) |}).
Proof.
  intros Hunm Hfs Hfp Hfu Hjob.
  assert (Hok : forall w0, has_job (JobID msg) (db w0) = true ->
                  processFASTQ e (JobID msg) (Path msg) w0
                  = db_Exec None (now e)
                      (UpsertQC (result_row (JobID msg) (scan lines) (analysis_ms e))) w0).
  { intros w0 _. unfold processFASTQ. now rewrite Hfs, Hfu. }
  assert (Hrun : forall d, has_job (JobID msg) d = true ->
                   Exec None (now e)
                     (UpsertQC (result_row (JobID msg) (scan lines) (analysis_ms e))) d
                   = ({| jobs := jobs d;
                         qc_results := upsert_row
                           (result_row (JobID msg) (scan lines) (analysis_ms e))
                           (qc_results d) |}, None)).
  { intros d Hd. unfold Exec. cbn [run_stmt result_row qc_job_id]. now rewrite Hd. }
  split.
  - rewrite (Hok w Hjob), db_Exec_err, (Hrun (db w) Hjob). reflexivity.
  - unfold handleDelivery. rewrite Hunm, Hfp.
    remember (fst (setStatus None (now e) (JobID msg) "processing" None w)) as w1 eqn:Hw1.
    assert (D1 : db w1 = {| jobs := update_jobs (JobID msg)
                                      (fun j => with_status j Processing None)
                                      (jobs (db w));
                            qc_results := qc_results (db w) |}).
    { subst w1. unfold setStatus. rewrite db_Exec_db. unfold Exec. cbn [run_stmt].
      now rewrite andb_false_r. }
    assert (J1 : has_job (JobID msg) (db w1) = true).
    { subst w1. now rewrite setStatus_has_job. }
    clear Hw1.
    rewrite (Hok w1 J1), db_Exec_err, (Hrun (db w1) J1). cbn [snd].
    run_worker. rewrite !db_Exec_db. cbn [db]. rewrite (Hrun (db w1) J1). cbn [fst].
    now rewrite D1.
Qed.

(** X9.  The whole success path: when the file is read and no statement
    fails, the job ends Done with a null failure reason and [completed_at]
    the time of the Done transition, its id, file name and submission time
    untouched; its result is the row computed from the file; the delivery is
    acknowledged. *)
Theorem X9_successful_delivery_ends_done
    (unm : string -> option QueueMessage) (e : Env) (body : string)
    (msg : QueueMessage) (lines : list string) (w : State) (j : JobRow) :
  unm body = Some msg ->
  fs e (Path msg) = Stream lines None ->
  no_faults e ->
  find_job (JobID msg) (db w) = Some j ->
  find_job (JobID msg) (db (handleDelivery unm e body w))
  = Some {| j_id := j_id j; j_filename := j_filename j;
            j_status := Done; j_error := None;
            j_submitted_at := j_submitted_at j;
            j_completed_at := Some (now e) |}
  /\ find_qc (JobID msg) (db (handleDelivery unm e body w))
     = Some (result_row (JobID msg) (scan lines) (analysis_ms e))
  /\ acks (handleDelivery unm e body w) = (acks w ++ [EvAck false])%list.
Proof.
  intros Hunm Hfs (Hfp & Hfu & _ & Hfd) Hj.
  assert (Hjob : has_job (JobID msg) (db w) = true) by (apply has_job_find; eauto).
  destruct (handleDelivery_analyzed unm e body msg lines w Hunm Hfs Hfp Hfu Hjob)
    as [Hok Hdb].
  split; [|split].
  - rewrite Hdb, Hfd. unfold Exec. cbn [run_stmt fst jobs qc_results].
    rewrite update_jobs_compose by reflexivity.
    apply (find_job_updated (JobID msg)
             (fun j0 => with_done (with_status j0 Processing None) (now e)) (db w));
      [reflexivity | assumption].
  - rewrite Hdb, Hfd. unfold Exec. cbn [run_stmt fst].
    unfold find_qc. cbn [qc_results].
    apply (find_upsert_row (result_row (JobID msg) (scan lines) (analysis_ms e))).
  - destruct (handleDelivery_accounting unm e body w)
      as [(_ & Ha & _)|([Hnone|(m & err & Hm & Herr)] & _)]; [assumption| |].
    + congruence.
    + rewrite Hunm in Hm. injection Hm as <-. congruence.
Qed.

Lemma X9_witness :
  find_job (JobID ex_msg) (db (handleDelivery ex_Unmarshal ex_env "item" (start ex_failed_db)))
  = Some (ex_job Done None (Some 101))
  /\ find_qc (JobID ex_msg)
       (db (handleDelivery ex_Unmarshal ex_env "item" (start ex_failed_db)))
     = Some (result_row (JobID ex_msg) (scan ex_lines) (analysis_ms ex_env))
  /\ acks (handleDelivery ex_Unmarshal ex_env "item" (start ex_failed_db))
     = (acks (start ex_failed_db) ++ [EvAck false])%list.
Proof.
  apply (X9_successful_delivery_ends_done ex_Unmarshal ex_env "item" ex_msg ex_lines
           (start ex_failed_db)
           (ex_job Failed (Some "open: no such file or directory") None)).
  - reflexivity.
  - reflexivity.
  - repeat split.
  - reflexivity.
Defined.

(** X10.  The Done transition is not retried: when the file is read and the
    result stored but the statement of [setDone] fails, the delivery has
    already been acknowledged, the result is in the table, and the job is left
    in Processing with the [completed_at] it had. *)
Theorem X10_failed_done_leaves_job_processing
    (unm : string -> option QueueMessage) (e : Env) (body : string)
    (msg : QueueMessage) (lines : list string) (w : State) (j : JobRow) (err : string) :
  unm body = Some msg ->
  fs e (Path msg) = Stream lines None ->
  fault_processing e = None -> fault_upsert e = None ->
  fault_done e = Some err ->
  find_job (JobID msg) (db w) = Some j ->
  find_job (JobID msg) (db (handleDelivery unm e body w))
  = Some {| j_id := j_id j; j_filename := j_filename j;
            j_status := Processing; j_error := None;
            j_submitted_at := j_submitted_at j;
            j_completed_at := j_completed_at j |}
  /\ find_qc (JobID msg) (db (handleDelivery unm e body w))
     = Some (result_row (JobID msg) (scan lines) (analysis_ms e))
  /\ acks (handleDelivery unm e body w) = (acks w ++ [EvAck false])%list
  /\ jobsProcessed (handleDelivery unm e body w) = jobsProcessed w + 1.
Proof.
  intros Hunm Hfs Hfp Hfu Hfd Hj.
  assert (Hjob : has_job (JobID msg) (db w) = true) by (apply has_job_find; eauto).
  destruct (handleDelivery_analyzed unm e body msg lines w Hunm Hfs Hfp Hfu Hjob)
    as [Hok Hdb].
  split; [|split].
  - rewrite Hdb, Hfd. cbn [Exec fst].
    apply (find_job_updated (JobID msg) (fun j0 => with_status j0 Processing None) (db w));
      [reflexivity | assumption].
  - rewrite Hdb, Hfd. cbn [Exec fst]. unfold find_qc. cbn [qc_results].
    apply (find_upsert_row (result_row (JobID msg) (scan lines) (analysis_ms e))).
  - destruct (handleDelivery_accounting unm e body w)
      as [(_ & Ha & Hp & _)|([Hnone|(m & err' & Hm & Herr)] & _)]; [auto| |].
    + congruence.
    + rewrite Hunm in Hm. injection Hm as <-. congruence.
Qed.

Lemma X10_witness :
  find_job (JobID ex_msg)
    (db (handleDelivery ex_Unmarshal ex_env_done_fails "item" (start ex_queued_db)))
  = Some (ex_job Processing None None)
  /\ find_qc (JobID ex_msg)
       (db (handleDelivery ex_Unmarshal ex_env_done_fails "item" (start ex_queued_db)))
     = Some (result_row (JobID ex_msg) (scan ex_lines) (analysis_ms ex_env_done_fails))
  /\ acks (handleDelivery ex_Unmarshal ex_env_done_fails "item" (start ex_queued_db))
     = (acks (start ex_queued_db) ++ [EvAck false])%list
  /\ jobsProcessed (handleDelivery ex_Unmarshal ex_env_done_fails "item" (start ex_queued_db))
     = jobsProcessed (start ex_queued_db) + 1.
Proof.
  apply (X10_failed_done_leaves_job_processing ex_Unmarshal ex_env_done_fails "item"
           ex_msg ex_lines (start ex_queued_db) (ex_job Queued None None) "connection lost").
  - reflexivity.
  - reflexivity.
  - reflexivity.
  - reflexivity.
  - reflexivity.
  - reflexivity.
Defined.

(** ** Redelivery *)

Lemma handleDelivery_delivered (unm : string -> option QueueMessage) (e : Env)
    (body : string) (msg : QueueMessage) (lines : list string) (w : State) :
  unm body = Some msg ->
  fs e (Path msg) = Stream lines None ->
  no_faults e ->
  has_job (JobID msg) (db w) = true ->
  db (handleDelivery unm e body w)
  = delivered (JobID msg) (result_row (JobID msg) (scan lines) (analysis_ms e))
              (now e) (db w).
Proof.
  intros Hunm Hfs (Hfp & Hfu & _ & Hfd) Hjob.
  destruct (handleDelivery_analyzed unm e body msg lines w Hunm Hfs Hfp Hfu Hjob)
    as [_ Hdb].
  rewrite Hdb, Hfd. unfold Exec, delivered. cbn [run_stmt fst jobs qc_results].
  now rewrite update_jobs_compose by reflexivity.
Qed.

(** Whatever a statement of the worker about the job did before, a complete
    delivery of the job writes over it. *)
Lemma delivered_absorbs (id : string) (row : QCRow) (now now' : Z)
    (fault : option string) (q : Stmt) (d : DB) :
  qc_job_id row = id -> worker_stmt q = true -> stmt_job q = id ->
  delivered id row now (fst (Exec fault now' q d)) = delivered id row now d.
Proof.
  intros Hrow Hq Hid. unfold Exec. destruct fault; [reflexivity|].
  destruct q as [i f|i s reason|i|r]; cbn [run_stmt stmt_job] in *; try discriminate.
  - subst i. destruct (has_job id d && negb (status_check s)); [reflexivity|].
    unfold delivered. cbn [fst jobs qc_results]. f_equal.
    rewrite update_jobs_compose by reflexivity. now apply update_jobs_ext.
  - subst i. unfold delivered. cbn [fst jobs qc_results]. f_equal.
    rewrite update_jobs_compose by reflexivity. now apply update_jobs_ext.
  - destruct (has_job (qc_job_id r) d); [|reflexivity].
    unfold delivered. cbn [fst jobs qc_results]. f_equal.
    apply upsert_row_twice. congruence.
Qed.

Lemma run_stmts_absorbed (id : string) (row : QCRow) (now now' : Z)
    (qs : list (option string * Stmt)) :
  qc_job_id row = id ->
  Forall (fun fq => worker_stmt (snd fq) = true) qs ->
  Forall (fun fq => stmt_job (snd fq) = id) qs ->
  forall d, delivered id row now (run_stmts now' qs d) = delivered id row now d.
Proof.
  intros Hrow Hw Hj. induction qs as [|[f q] qs IH]; intros d; [reflexivity|].
  inversion Hw as [|? ? Hw1 Hw2]; inversion Hj as [|? ? Hj1 Hj2]; subst.
  change (run_stmts now' ((f, q) :: qs) d)
    with (run_stmts now' qs (fst (Exec f now' q d))).
  rewrite IH by assumption. now apply delivered_absorbs.
Qed.

Lemma run_stmts_has_job (now : Z) (qs : list (option string * Stmt)) (id : string) :
  Forall (fun fq => worker_stmt (snd fq) = true) qs ->
  forall d, has_job id (run_stmts now qs d) = has_job id d.
Proof.
  intros Hw. induction Hw as [|[f q] qs Hq _ IH]; intros d; [reflexivity|].
  change (run_stmts now ((f, q) :: qs) d) with (run_stmts now qs (fst (Exec f now q d))).
  rewrite IH. apply Exec_has_job. intros i f0 E. subst q. discriminate Hq.
Qed.

(** X11.  Redelivery is safe: a delivery of a job that succeeds in every step
    leaves the database exactly as it would have without any earlier delivery
    of the same job, however that earlier one went (failed, half done or
    complete): no second row, no trace of the earlier outcome. *)
Theorem X11_complete_delivery_overwrites_earlier_one
    (unm : string -> option QueueMessage) (e1 e2 : Env) (body1 body2 : string)
    (msg1 msg2 : QueueMessage) (lines : list string) (w : State) :
  unm body1 = Some msg1 ->
  unm body2 = Some msg2 ->
  JobID msg1 = JobID msg2 ->
  has_job (JobID msg2) (db w) = true ->
  fs e2 (Path msg2) = Stream lines None ->
  no_faults e2 ->
  db (handleDelivery unm e2 body2 (handleDelivery unm e1 body1 w))
  = db (handleDelivery unm e2 body2 w).
Proof.
  intros Hu1 Hu2 Hid Hjob Hfs Hnf.
  destruct (handleDelivery_db_steps unm e1 body1 w) as (qs & Hdb1 & Hw & Hj & _).
  specialize (Hj msg1 Hu1). rewrite Hid in Hj.
  rewrite (handleDelivery_delivered unm e2 body2 msg2 lines w Hu2 Hfs Hnf Hjob).
  rewrite (handleDelivery_delivered unm e2 body2 msg2 lines _ Hu2 Hfs Hnf)
    by (rewrite Hdb1, run_stmts_has_job; assumption).
  rewrite Hdb1. now apply run_stmts_absorbed.
Qed.

Lemma X11_witness :
  db (handleDelivery ex_Unmarshal ex_env_later "item"
        (handleDelivery ex_Unmarshal ex_env "item-missing" (start ex_queued_db)))
  = db (handleDelivery ex_Unmarshal ex_env_later "item" (start ex_queued_db)).
Proof.
  apply (X11_complete_delivery_overwrites_earlier_one ex_Unmarshal ex_env ex_env_later
           "item-missing" "item" ex_msg_missing ex_msg ex_lines (start ex_queued_db)).
  - reflexivity.
  - reflexivity.
  - reflexivity.
  - reflexivity.
  - reflexivity.
  - repeat split.
Defined.

(** ** The promises of the schema *)

Lemma In_upsert_row (r x : QCRow) (t : list QCRow) :
  In x (upsert_row r t) -> In x t \/ qc_job_id x = qc_job_id r.
Proof.
  induction t as [|y t IH]; cbn [upsert_row In].
  - intros [<-|[]]. now right.
  - destruct (String.eqb_spec (qc_job_id y) (qc_job_id r)) as [E|E]; cbn [In].
    + intros [<-|H]; [right; exact E | left; now right].
    + intros [<-|H]; [left; now left|]. destruct (IH H); [left; now right | now right].
Qed.

Lemma has_job_insert (id id' f : string) (now : Z) (d : DB) :
  has_job id' d = true ->
  has_job id' {| jobs := jobs d ++ [new_job id f now]; qc_results := qc_results d |} = true.
Proof.
  unfold has_job. cbn [jobs]. rewrite existsb_app. now intros ->.
Qed.

(** Every statement, failing or not, leaves a database that keeps the
    promises of the schema. *)
Lemma Exec_schema_ok (fault : option string) (now : Z) (q : Stmt) (d : DB) :
  schema_ok d -> schema_ok (fst (Exec fault now q d)).
Proof.
  intros (Hk & Hfk & Hck). split; [now apply Exec_keys_unique|].
  unfold Exec. destruct fault; [now split|].
  destruct q as [id f|id s reason|id|r]; cbn [run_stmt].
  - destruct (has_job id d); [now split|]. cbn [fst jobs qc_results]. split.
    + intros r Hr. apply has_job_insert. now apply Hfk.
    + intros j Hj. apply in_app_iff in Hj. destruct Hj as [Hj|[<-|[]]]; [auto | reflexivity].
  - destruct (has_job id d) eqn:Ej; cbn [andb].
    + destruct (status_check s) eqn:Es; cbn [negb]; [|now split].
      cbn [fst jobs qc_results]. split.
      * intros r Hr.
        rewrite (has_job_update_jobs id (qc_job_id r) (fun j => with_status j s reason) d)
          by reflexivity. now apply Hfk.
      * intros j Hj. apply In_update_jobs in Hj.
        destruct Hj as [Hj|(j0 & _ & _ & ->)]; [auto | exact Es].
    + cbn [fst]. rewrite update_jobs_absent by assumption. split; assumption.
  - cbn [fst jobs qc_results]. split.
    + intros r Hr.
      rewrite (has_job_update_jobs id (qc_job_id r) (fun j => with_done j now) d)
        by reflexivity. now apply Hfk.
    + intros j Hj. apply In_update_jobs in Hj.
      destruct Hj as [Hj|(j0 & _ & _ & ->)]; [auto | reflexivity].
  - destruct (has_job (qc_job_id r) d) eqn:Ej; [|now split].
    cbn [fst jobs qc_results]. split; [|assumption].
    intros x Hx. apply In_upsert_row in Hx. destruct Hx as [Hx|Hx].
    + now apply Hfk.
    + unfold has_job in *. cbn [jobs]. now rewrite Hx.
Qed.

(** X12.  The consume loop keeps the promises of the schema at every point:
    after each of its statements the ids of [jobs] and of [qc_results] are
    unique, every result belongs to a job in the table, and every status is
    one of queued, processing, done and error. *)
Theorem X12_consume_keeps_schema
    (unm : string -> option QueueMessage) (ds : list (Env * string)) (w : State) :
  holds_throughout schema_ok w ->
  holds_throughout schema_ok (consume unm ds w).
Proof.
  intros Hw. apply consume_invariant; [|assumption].
  intros e body w0. apply handleDelivery_invariant.
  - intros fault now id s reason d _ Hd. now apply Exec_schema_ok.
  - intros fault now r d Hd. now apply Exec_schema_ok.
  - intros fault now id d Hd _. now apply Exec_schema_ok.
Qed.

Lemma X12_witness :
  holds_throughout schema_ok
    (consume ex_Unmarshal [(ex_env, "item"); (ex_env_later, "item")] (start ex_two_jobs_db)).
Proof.
  apply (X12_consume_keeps_schema ex_Unmarshal [(ex_env, "item"); (ex_env_later, "item")]
           (start ex_two_jobs_db)).
  split; [|constructor].
  split; [split|split].
  - cbn. repeat constructor; cbn; intuition discriminate.
  - cbn. repeat constructor; cbn; intuition discriminate.
  - intros r [<-|[]]. reflexivity.
  - intros j [<-|[<-|[]]]; reflexivity.
Defined.

(** ** [handleSubmit] *)

Lemma Exec_insert_ok (fault : option string) (now : Z) (id f : string) (d : DB) :
  snd (Exec fault now (InsertJob id f) d) = None ->
  has_job id d = false
  /\ fst (Exec fault now (InsertJob id f) d)
     = {| jobs := jobs d ++ [new_job id f now]; qc_results := qc_results d |}.
Proof.
  unfold Exec. destruct fault; [discriminate|]. cbn [run_stmt].
  destruct (has_job id d); [discriminate|]. auto.
Qed.

Lemma Exec_insert_jobs (fault : option string) (now : Z) (id f : string) (d : DB) :
  qc_results (fst (Exec fault now (InsertJob id f) d)) = qc_results d
  /\ (jobs (fst (Exec fault now (InsertJob id f) d)) = jobs d
      \/ jobs (fst (Exec fault now (InsertJob id f) d))
         = (jobs d ++ [new_job id f now])%list).
Proof.
  unfold Exec. destruct fault; [auto|]. cbn [run_stmt].
  destruct (has_job id d); cbn [fst jobs qc_results]; auto.
Qed.

(** X13.  The answer of [handleSubmit] tells what is on the queue.  It is
    200 only for an upload whose file is stored under the path of the work
    item, whose job row exists in state Queued with the file's base name, and
    for which exactly one work item, naming that job and path, has been
    published; with any other answer nothing has been published. *)
Theorem X13_submit_answers_200_iff_published
    (Base : string -> string) (Join : string -> string -> string)
    (Marshal : QueueMessage -> string)
    (e : Ingress.Env) (r : Ingress.Request) (s : Ingress.State) :
  (Ingress.code (snd (Ingress.handleSubmit Base Join Marshal e r s)) = 200
   /\ exists name content,
        r = Ingress.Upload name content
        /\ Ingress.queue (fst (Ingress.handleSubmit Base Join Marshal e r s))
           = (Ingress.queue s ++ [Marshal (submitted_item Base Join e name)])%list
        /\ find_job (Ingress.new_uuid e)
             (Ingress.db (fst (Ingress.handleSubmit Base Join Marshal e r s)))
           = Some (new_job (Ingress.new_uuid e) (Base name) (Ingress.now e))
        /\ file_content (Path (submitted_item Base Join e name))
             (Ingress.files (fst (Ingress.handleSubmit Base Join Marshal e r s)))
           = Some content)
  \/ (Ingress.code (snd (Ingress.handleSubmit Base Join Marshal e r s)) <> 200
      /\ Ingress.queue (fst (Ingress.handleSubmit Base Join Marshal e r s))
         = Ingress.queue s).
Proof.
  unfold Ingress.handleSubmit.
  destruct r as [| |name content]; try (right; split; [discriminate | reflexivity]).
  destruct (Ingress.mkdir_err e); [right; split; [discriminate | reflexivity]|].
  destruct (Ingress.create_err e); [right; split; [discriminate | reflexivity]|].
  destruct (Ingress.write_err e); [right; split; [discriminate | reflexivity]|].
  destruct (snd (Exec (Ingress.fault_insert e) (Ingress.now e)
                      (InsertJob (Ingress.new_uuid e) (Base name)) (Ingress.db s)))
    eqn:Eins; [right; split; [discriminate | reflexivity]|].
  destruct (Ingress.publish_err e); [right; split; [discriminate | reflexivity]|].
  left. split; [reflexivity|]. exists name, content.
  apply Exec_insert_ok in Eins. destruct Eins as [Hfresh Hdb].
  cbn [fst snd Ingress.queue Ingress.db Ingress.files]. rewrite Hdb.
  repeat split.
  - now apply find_job_inserted.
  - apply file_content_written.
Qed.

Lemma file_content_write_other (p path content : string) (fs : list (string * string)) :
  p <> path ->
  file_content p (Ingress.write_file path content fs) = file_content p fs.
Proof.
  intros Hne. unfold file_content, Ingress.write_file. cbn [find fst].
  destruct (String.eqb_spec path p); [congruence|]. f_equal.
  induction fs as [|[q c] fs IH]; cbn [filter find fst]; [reflexivity|].
  destruct (String.eqb_spec q path) as [->|Hq]; cbn [negb find fst].
  - destruct (String.eqb_spec path p); [congruence | exact IH].
  - destruct (String.eqb q p); [reflexivity | exact IH].
Qed.

(** X14.  [handleSubmit] only adds: it never touches [qc_results], never
    changes or removes a job row (the jobs after it are the jobs before it,
    with at most the one new Queued row at the end), leaves every stored file
    but the one it writes, and changes nothing at all when it answers 400. *)
Theorem X14_submit_only_adds
    (Base : string -> string) (Join : string -> string -> string)
    (Marshal : QueueMessage -> string)
    (e : Ingress.Env) (r : Ingress.Request) (s : Ingress.State) :
  qc_results (Ingress.db (fst (Ingress.handleSubmit Base Join Marshal e r s)))
  = qc_results (Ingress.db s)
  /\ (jobs (Ingress.db (fst (Ingress.handleSubmit Base Join Marshal e r s)))
      = jobs (Ingress.db s)
      \/ exists name content,
           r = Ingress.Upload name content
           /\ jobs (Ingress.db (fst (Ingress.handleSubmit Base Join Marshal e r s)))
              = (jobs (Ingress.db s)
                 ++ [new_job (Ingress.new_uuid e) (Base name) (Ingress.now e)])%list)
  /\ (forall p,
        (forall name content, r = Ingress.Upload name content ->
                              p <> Path (submitted_item Base Join e name)) ->
        file_content p (Ingress.files (fst (Ingress.handleSubmit Base Join Marshal e r s)))
        = file_content p (Ingress.files s))
  /\ (Ingress.code (snd (Ingress.handleSubmit Base Join Marshal e r s)) = 400 ->
      fst (Ingress.handleSubmit Base Join Marshal e r s) = s).
Proof.
  unfold Ingress.handleSubmit.
  destruct r as [| |name content]; try (repeat split; auto; fail).
  destruct (Ingress.mkdir_err e); [repeat split; auto; discriminate|].
  destruct (Ingress.create_err e); [repeat split; auto; discriminate|].
  assert (Hfile : forall c p,
             (forall name0 content0,
                 Ingress.Upload name content = Ingress.Upload name0 content0 ->
                 p <> Path (submitted_item Base Join e name0)) ->
             file_content p
               (Ingress.write_file
                  (Join (Ingress.uploadDir e) (Ingress.new_uuid e ++ "_" ++ Base name)%string)
                  c (Ingress.files s))
             = file_content p (Ingress.files s)).
  { intros c p Hp. apply file_content_write_other. apply (Hp name content eq_refl). }
  destruct (Ingress.write_err e) as [written|].
  { cbn [fst snd Ingress.db Ingress.files Ingress.code Ingress.http_Error].
    repeat split; auto. discriminate. }
  destruct (Exec_insert_jobs (Ingress.fault_insert e) (Ingress.now e)
              (Ingress.new_uuid e) (Base name) (Ingress.db s)) as [Hq Hj].
  assert (Hj' : jobs (fst (Exec (Ingress.fault_insert e) (Ingress.now e)
                             (InsertJob (Ingress.new_uuid e) (Base name)) (Ingress.db s)))
                = jobs (Ingress.db s)
                \/ exists name0 content0,
                     Ingress.Upload name content = Ingress.Upload name0 content0
                     /\ jobs (fst (Exec (Ingress.fault_insert e) (Ingress.now e)
                                     (InsertJob (Ingress.new_uuid e) (Base name))
                                     (Ingress.db s)))
                        = (jobs (Ingress.db s)
                           ++ [new_job (Ingress.new_uuid e) (Base name0) (Ingress.now e)])%list).
  { destruct Hj as [Hj|Hj]; [now left | right; exists name, content; auto]. }
  destruct (snd (Exec (Ingress.fault_insert e) (Ingress.now e)
                      (InsertJob (Ingress.new_uuid e) (Base name)) (Ingress.db s)));
    [|destruct (Ingress.publish_err e)];
    cbn [fst snd Ingress.db Ingress.files Ingress.code Ingress.http_Error];
    repeat split; auto; discriminate.
Qed.

(** ** From submission to query *)

Lemma delivered_find (id : string) (row : QCRow) (now : Z) (d : DB) (j : JobRow) :
  qc_job_id row = id ->
  find_job id d = Some j ->
  find_job id (delivered id row now d) = Some (done_row j now)
  /\ find_qc id (delivered id row now d) = Some row.
Proof.
  intros Hrow Hj. unfold delivered. split.
  - apply (find_job_updated id (fun j0 => done_row j0 now) d); [reflexivity | assumption].
  - unfold find_qc. cbn [qc_results]. rewrite <- Hrow. apply find_upsert_row.
Qed.

(** X15.  The three processes compose.  After a submission that succeeds, the
    delivery of the work item it published (decoded to what was encoded, its
    file read without error, no statement failing) and then a query for the
    job id answer with the job in state Done, named by the base name of the
    upload, submitted at the time of the INSERT and completed at the time of
    the Done transition, together with the metrics computed from the file. *)
Theorem X15_submit_deliver_query
    (Base : string -> string) (Join : string -> string -> string)
    (Marshal : QueueMessage -> string) (unm : string -> option QueueMessage)
    (ie : Ingress.Env) (we : Env) (name content : string) (s : Ingress.State)
    (lines : list string) :
  Ingress.code (snd (Ingress.handleSubmit Base Join Marshal ie
                       (Ingress.Upload name content) s)) = 200 ->
  unm (Marshal (submitted_item Base Join ie name)) = Some (submitted_item Base Join ie name) ->
  fs we (Path (submitted_item Base Join ie name)) = Stream lines None ->
  no_faults we ->
  Results.handleGetJob false false
    (db (handleDelivery unm we (Marshal (submitted_item Base Join ie name))
           (start (Ingress.db (fst (Ingress.handleSubmit Base Join Marshal ie
                                      (Ingress.Upload name content) s))))))
    (Ingress.new_uuid ie)
  = Results.OK
      {| Results.Job := {| j_id := Ingress.new_uuid ie; j_filename := Base name;
                           j_status := Done; j_error := None;
                           j_submitted_at := Ingress.now ie;
                           j_completed_at := Some (now we) |};
         Results.QC := Some (result_row (Ingress.new_uuid ie) (scan lines)
                                        (analysis_ms we)) |}.
Proof.
  intros Hcode Hunm Hfs Hnf.
  assert (Hjob : find_job (Ingress.new_uuid ie)
                   (Ingress.db (fst (Ingress.handleSubmit Base Join Marshal ie
                                       (Ingress.Upload name content) s)))
                 = Some (new_job (Ingress.new_uuid ie) (Base name) (Ingress.now ie))).
  { revert Hcode. unfold Ingress.handleSubmit.
    destruct (Ingress.mkdir_err ie); [discriminate|].
    destruct (Ingress.create_err ie); [discriminate|].
    destruct (Ingress.write_err ie); [discriminate|].
    destruct (snd (Exec (Ingress.fault_insert ie) (Ingress.now ie)
                        (InsertJob (Ingress.new_uuid ie) (Base name)) (Ingress.db s)))
      eqn:Eins; [discriminate|].
    destruct (Ingress.publish_err ie); [discriminate|]. intros _.
    apply Exec_insert_ok in Eins. destruct Eins as [Hfresh Hdb].
    cbn [fst Ingress.db]. rewrite Hdb. now apply find_job_inserted. }
  set (d0 := Ingress.db (fst (Ingress.handleSubmit Base Join Marshal ie
                                (Ingress.Upload name content) s))) in *.
  assert (Hhas : has_job (JobID (submitted_item Base Join ie name)) (db (start d0)) = true).
  { apply has_job_find. eexists. exact Hjob. }
  rewrite (handleDelivery_delivered unm we _ (submitted_item Base Join ie name) lines
             (start d0) Hunm Hfs Hnf Hhas).
  cbn [submitted_item JobID db start].
  destruct (delivered_find (Ingress.new_uuid ie)
              (result_row (Ingress.new_uuid ie) (scan lines) (analysis_ms we))
              (now we) d0 _ eq_refl Hjob) as [Hfj Hfq].
  unfold Results.handleGetJob. rewrite Hfj, Hfq. reflexivity.
Qed.

Lemma X15_witness :
  Results.handleGetJob false false
    (db (handleDelivery ex_Unmarshal_wire ex_env
           (ex_Marshal (submitted_item ex_Base ex_Join ex_submit_env "tiny.fastq"))
           (start (Ingress.db (fst (Ingress.handleSubmit ex_Base ex_Join ex_Marshal
                                      ex_submit_env (Ingress.Upload "tiny.fastq" "@r1")
                                      ex_submit_state))))))
    (Ingress.new_uuid ex_submit_env)
  = Results.OK
      {| Results.Job := {| j_id := Ingress.new_uuid ex_submit_env;
                           j_filename := ex_Base "tiny.fastq";
                           j_status := Done; j_error := None;
                           j_submitted_at := Ingress.now ex_submit_env;
                           j_completed_at := Some (now ex_env) |};
         Results.QC := Some (result_row (Ingress.new_uuid ex_submit_env) (scan ex_lines)
                                        (analysis_ms ex_env)) |}.
Proof.
  apply (X15_submit_deliver_query ex_Base ex_Join ex_Marshal ex_Unmarshal_wire
           ex_submit_env ex_env "tiny.fastq" "@r1" ex_submit_state ex_lines).
  - reflexivity.
  - reflexivity.
  - reflexivity.
  - repeat split.
Defined.

(** ** [handleGetJob] *)


(** ** Undecodable bodies *)

(** X17.  Bodies that do not decode are drained without a statement: after
    any run of them the database and the processed counter are what they
    were, each body has been discarded without requeue, and the failure
    counter has grown by their number. *)
Theorem X17_undecodable_bodies_leave_database
    (unm : string -> option QueueMessage) (ds : list (Env * string)) (w : State) :
  Forall (fun d => unm (snd d) = None) ds ->
  db (consume unm ds w) = db w
  /\ trace (consume unm ds w)
     = (trace w ++ repeat (EvNack false false) (List.length ds))%list
  /\ jobFailures (consume unm ds w) = jobFailures w + Z.of_nat (List.length ds)
  /\ jobsProcessed (consume unm ds w) = jobsProcessed w.
Proof.
  intros Hds. unfold consume. revert w.
  induction Hds as [|[e body] ds Hd _ IH]; intros w; cbn [fold_left fst snd].
  - rewrite app_nil_r. cbn [List.length repeat].
    split; [reflexivity|]. split; [reflexivity|]. split; [lia | reflexivity].
  - destruct (IH (handleDelivery unm e body w)) as (Hdb & Ht & Hf & Hp).
    rewrite Hdb, Ht, Hf, Hp. unfold handleDelivery. cbn [snd] in Hd. rewrite Hd.
    unfold jobFailures_Inc, Nack, emit. cbn [db trace jobFailures jobsProcessed].
    rewrite <- app_assoc. cbn [List.length repeat app].
    split; [reflexivity|]. split; [reflexivity|]. split; [lia | reflexivity].
Qed.

Lemma X17_witness :
  db (consume ex_Unmarshal [(ex_env, "garbage"); (ex_env, "")] (start ex_queued_db))
  = db (start ex_queued_db)
  /\ trace (consume ex_Unmarshal [(ex_env, "garbage"); (ex_env, "")] (start ex_queued_db))
     = (trace (start ex_queued_db)
        ++ repeat (EvNack false false)
                  (List.length [(ex_env, "garbage"); (ex_env, "")]))%list
  /\ jobFailures (consume ex_Unmarshal [(ex_env, "garbage"); (ex_env, "")]
                    (start ex_queued_db))
     = jobFailures (start ex_queued_db)
       + Z.of_nat (List.length [(ex_env, "garbage"); (ex_env, "")])
  /\ jobsProcessed (consume ex_Unmarshal [(ex_env, "garbage"); (ex_env, "")]
                      (start ex_queued_db))
     = jobsProcessed (start ex_queued_db).
Proof.
  apply (X17_undecodable_bodies_leave_database ex_Unmarshal
           [(ex_env, "garbage"); (ex_env, "")] (start ex_queued_db)).
  repeat constructor.
Defined.

(** ** White space around a content line *)

Lemma asciiSpace_low (b : ascii) : asciiSpace b = true -> byte_val b < 128.
Proof.
  destruct b as [[] [] [] [] [] [] [] []]; vm_compute; intros H;
    try discriminate H; reflexivity.
Qed.

Lemma space2_bytes (a b : ascii) :
  space2 a b = true -> byte_val a = 194 /\ 128 <= byte_val b < 192.
Proof.
  unfold space2. rewrite andb_true_iff, orb_true_iff, !Z.eqb_eq. lia.
Qed.

Lemma space3_bytes (a b c : ascii) :
  space3 a b c = true ->
  225 <= byte_val a <= 227 /\ 128 <= byte_val b < 192 /\ 128 <= byte_val c < 192.
Proof.
  unfold space3.
  rewrite !orb_true_iff, !andb_true_iff, !orb_true_iff, !andb_true_iff,
    !Z.eqb_eq, !Z.leb_le.
  lia.
Qed.

Lemma not_asciiSpace_high (b : ascii) : 128 <= byte_val b -> asciiSpace b = false.
Proof.
  intros H. destruct (asciiSpace b) eqn:E; [|reflexivity].
  apply asciiSpace_low in E. lia.
Qed.

Lemma not_space2_first (a b : ascii) : byte_val a <> 194 -> space2 a b = false.
Proof.
  intros H. destruct (space2 a b) eqn:E; [|reflexivity].
  apply space2_bytes in E. lia.
Qed.

Lemma not_space2_second (a b : ascii) :
  byte_val b < 128 \/ 192 <= byte_val b -> space2 a b = false.
Proof.
  intros H. destruct (space2 a b) eqn:E; [|reflexivity].
  apply space2_bytes in E. lia.
Qed.

Lemma not_space3_second (a b c : ascii) :
  byte_val b < 128 \/ 192 <= byte_val b -> space3 a b c = false.
Proof.
  intros H. destruct (space3 a b c) eqn:E; [|reflexivity].
  apply space3_bytes in E. lia.
Qed.

Lemma not_space3_third (a b c : ascii) :
  byte_val c < 128 \/ 192 <= byte_val c -> space3 a b c = false.
Proof.
  intros H. destruct (space3 a b c) eqn:E; [|reflexivity].
  apply space3_bytes in E. lia.
Qed.

(** A run of white space starts with an ASCII byte or with the first byte of
    a multi-byte rune, never with a continuation byte. *)
Lemma white_head (b : ascii) (t : list ascii) :
  white (b :: t) -> byte_val b < 128 \/ 192 <= byte_val b.
Proof.
  intros H. inversion H as [|? ? Ha|? ? ? Ha|? ? ? ? Ha]; subst.
  - left. now apply asciiSpace_low.
  - apply space2_bytes in Ha. lia.
  - apply space3_bytes in Ha. lia.
Qed.

Lemma trimLeft_white (l x : list ascii) :
  white l -> trimLeft (l ++ x)%list = trimLeft x.
Proof.
  intros Hl. induction Hl as [|a t Ha _ IH|a b t Hab _ IH|a b c t Habc _ IH].
  - reflexivity.
  - cbn [app trimLeft]. now rewrite Ha.
  - cbn [app trimLeft]. rewrite Hab.
    apply space2_bytes in Hab.
    now rewrite (not_asciiSpace_high a) by lia.
  - cbn [app trimLeft]. rewrite Habc.
    apply space3_bytes in Habc.
    rewrite (not_asciiSpace_high a) by lia.
    now rewrite (not_space2_first a b) by lia.
Qed.

Lemma trimLeftRev_white (r : list ascii) :
  white r -> forall z, trimLeftRev (rev r ++ z)%list = trimLeftRev z.
Proof.
  intros Hr. induction Hr as [|a t Ha _ IH|a b t Hab _ IH|a b c t Habc _ IH]; intros z.
  - reflexivity.
  - cbn [rev]. rewrite <- app_assoc, IH. cbn [app trimLeftRev]. now rewrite Ha.
  - cbn [rev]. rewrite <- !app_assoc, IH. cbn [app trimLeftRev]. rewrite Hab.
    apply space2_bytes in Hab.
    now rewrite (not_asciiSpace_high b) by lia.
  - cbn [rev]. rewrite <- !app_assoc, IH. cbn [app trimLeftRev]. rewrite Habc.
    apply space3_bytes in Habc.
    rewrite (not_asciiSpace_high c) by lia.
    now rewrite (not_space2_first b c) by lia.
Qed.

Lemma trimLeft_stops (x : list ascii) :
  starts_with_space x = false -> trimLeft x = x.
Proof.
  destruct x as [|a [|b [|c t]]]; cbn [starts_with_space trimLeft]; auto.
  - rewrite orb_false_r. now intros ->.
  - rewrite orb_false_r. intros H. apply orb_false_iff in H. destruct H as [-> ->].
    reflexivity.
  - intros H. apply orb_false_iff in H. destruct H as [-> H].
    apply orb_false_iff in H. destruct H as [-> ->]. reflexivity.
Qed.

Lemma trimLeftRev_stops (x : list ascii) :
  starts_with_space_rev x = false -> trimLeftRev x = x.
Proof.
  destruct x as [|c [|b [|a t]]]; cbn [starts_with_space_rev trimLeftRev]; auto.
  - rewrite orb_false_r. now intros ->.
  - rewrite orb_false_r. intros H. apply orb_false_iff in H. destruct H as [-> ->].
    reflexivity.
  - intros H. apply orb_false_iff in H. destruct H as [-> H].
    apply orb_false_iff in H. destruct H as [-> ->]. reflexivity.
Qed.

(** White space after bytes that do not start with white space does not
    make them start with it: a rune does not straddle the two. *)
Lemma starts_with_space_before_white (core r : list ascii) :
  core <> [] -> white r ->
  starts_with_space core = false -> starts_with_space (core ++ r)%list = false.
Proof.
  intros Hne Hr. destruct core as [|a [|b [|c t]]]; [congruence| | |];
    cbn [app starts_with_space]; auto.
  - rewrite orb_false_r. intros Ha. rewrite Ha. cbn [orb].
    destruct r as [|b r']; [reflexivity|].
    pose proof (white_head b r' Hr) as Hb.
    rewrite (not_space2_second a b Hb). cbn [orb].
    destruct r' as [|c r'']; [reflexivity|]. now apply not_space3_second.
  - rewrite orb_false_r. intros H. apply orb_false_iff in H. destruct H as [-> ->].
    cbn [orb]. destruct r as [|c r']; [reflexivity|].
    apply not_space3_third. now apply (white_head c r').
Qed.

(** What [TrimSpace] returns is determined by the line: if the line is
    [core] between two runs of white space and [core] neither starts nor ends
    with white space, [core] is what is returned. *)
Lemma TrimSpace_core (l core r : list ascii) :
  white l -> white r ->
  starts_with_space core = false -> ends_with_space core = false ->
  TrimSpace (string_of_list_ascii (l ++ core ++ r)) = string_of_list_ascii core.
Proof.
  intros Hl Hr Hs He. unfold TrimSpace. f_equal.
  rewrite list_ascii_of_string_of_list_ascii, (trimLeft_white l _ Hl).
  destruct core as [|a core'] eqn:Ecore.
  - cbn [app]. rewrite <- (app_nil_r r), (trimLeft_white r [] Hr). reflexivity.
  - rewrite <- Ecore in *.
    rewrite trimLeft_stops
      by (apply starts_with_space_before_white; [congruence | assumption | assumption]).
    unfold trimRight. rewrite rev_app_distr, (trimLeftRev_white r Hr).
    rewrite trimLeftRev_stops by exact He. apply rev_involutive.
Qed.

(** X18.  White space around a content line changes nothing: a line made of
    [core] between any two runs of white space (ASCII or not) moves every
    counter exactly as [core] alone does, provided [core] itself neither
    starts nor ends with white space. *)
Theorem X18_padding_does_not_change_counters
    (c : Counters) (core : string) (l r : list ascii) :
  white l -> white r ->
  starts_with_space (list_ascii_of_string core) = false ->
  ends_with_space (list_ascii_of_string core) = false ->
  scan_line c (string_of_list_ascii (l ++ list_ascii_of_string core ++ r)) = scan_line c core.
Proof.
  intros Hl Hr Hs He. unfold scan_line.
  rewrite (TrimSpace_core l (list_ascii_of_string core) r Hl Hr Hs He).
  pose proof (TrimSpace_core [] (list_ascii_of_string core) [] white_nil white_nil Hs He)
    as Hcore.
  cbn [app] in Hcore. rewrite app_nil_r, !string_of_list_ascii_of_string in Hcore.
  rewrite Hcore, string_of_list_ascii_of_string. reflexivity.
Qed.

Lemma X18_witness :
  scan_line ex_counters
    (string_of_list_ascii
       (list_ascii_of_string "  " ++ list_ascii_of_string "ACGT"
        ++ list_ascii_of_string ex_nbsp_cr))
  = scan_line ex_counters "ACGT".
Proof.
  apply (X18_padding_does_not_change_counters ex_counters "ACGT"
           (list_ascii_of_string "  ") (list_ascii_of_string ex_nbsp_cr)).
  - repeat (apply white_1; [reflexivity|]). constructor.
  - apply white_2; [reflexivity|]. apply white_1; [reflexivity|]. constructor.
  - reflexivity.
  - reflexivity.
Defined.
